(** * GitMerge: a shallow embedding of [repo-merger.py]

    The script clones two repositories, rewrites the history of the
    incoming one under a subdirectory and merges it into the base one.
    Everything it does to the outside world goes through three doors:
    external processes ([subprocess.run], [subprocess.Popen]), the
    terminal ([Prompt.ask], [print]) and the two working-area
    directories ([Path.exists], [shutil.rmtree]).  The model threads a
    [World] through the script's functions; external processes are
    answered by an oracle that sees the whole history of the run, so a
    statement quantified over worlds covers every deterministic
    behaviour of git, git-filter-repo and the remote repositories.

    Strings are sequences of 8-bit characters; the Unicode-only
    whitespace and line-boundary characters of Python's [str] lie
    outside the model.  Wall-clock timing ([time.time()]) and the
    interrupt handler are not modelled; [log] is never called and is
    left out. *)

From Stdlib Require Import ZArith String Ascii List Lia.
From stdpp Require Import base gmap sets list strings sorting pretty.
Import ListNotations.

Set Warnings "-register-all".

Local Open Scope list_scope.
Local Open Scope string_scope.

(** ** Python's [str] methods, as far as the script uses them *)

Module PyStr.

(** [str.isspace] on one character: TAB, LF, VT, FF, CR, FS, GS, RS, US
    and the space. *)
Definition is_space (c : ascii) : bool :=
  let n := nat_of_ascii c in
  (((9 <=? n) && (n <=? 13)) || ((28 <=? n) && (n <=? 31)) || (n =? 32))%nat.

(** The characters at which [str.splitlines] ends a line: LF, VT, FF,
    CR, FS, GS, RS (and CR LF as one boundary). *)
Definition is_line_boundary (c : ascii) : bool :=
  let n := nat_of_ascii c in
  (((10 <=? n) && (n <=? 13)) || ((28 <=? n) && (n <=? 30)))%nat.

Definition LF : ascii := ascii_of_nat 10.
Definition CR : ascii := ascii_of_nat 13.

Fixpoint lstrip (s : string) : string :=
  match s with
  | EmptyString => EmptyString
  | String c rest => if is_space c then lstrip rest else s
  end.

Fixpoint rstrip (s : string) : string :=
  match s with
  | EmptyString => EmptyString
  | String c rest =>
      match rstrip rest with
      | EmptyString => if is_space c then EmptyString else String c EmptyString
      | kept => String c kept
      end
  end.

(** [s.strip()] *)
Definition strip (s : string) : string := rstrip (lstrip s).

(** [s.splitlines()]: no empty last line after a final boundary, and
    the empty string has no lines. *)
Fixpoint splitlines (s : string) : list string :=
  match s with
  | EmptyString => []
  | String c rest =>
      if is_line_boundary c then
        match rest with
        | String c' rest' =>
            if (Ascii.eqb c CR && Ascii.eqb c' LF)%bool
            then EmptyString :: splitlines rest'
            else EmptyString :: splitlines rest
        | EmptyString => [EmptyString]
        end
      else
        match splitlines rest with
        | [] => [String c EmptyString]
        | line :: lines => String c line :: lines
        end
  end.

(** [s.split(sep)] for a separator of one character: always at least
    one field. *)
Fixpoint split (sep : ascii) (s : string) : list string :=
  match s with
  | EmptyString => [EmptyString]
  | String c rest =>
      if Ascii.eqb c sep then EmptyString :: split sep rest
      else
        match split sep rest with
        | [] => [String c EmptyString]
        | field :: fields => String c field :: fields
        end
  end.

Fixpoint startswith (p s : string) : bool :=
  match p, s with
  | EmptyString, _ => true
  | String a p', String b s' => Ascii.eqb a b && startswith p' s'
  | String _ _, EmptyString => false
  end.

(** [needle in hay] *)
Fixpoint contains (needle hay : string) : bool :=
  startswith needle hay
  || match hay with
     | EmptyString => false
     | String _ rest => contains needle rest
     end.

Definition lower_char (c : ascii) : ascii :=
  let n := nat_of_ascii c in
  if ((65 <=? n) && (n <=? 90))%nat then ascii_of_nat (n + 32) else c.

(** [s.lower()] *)
Fixpoint lower (s : string) : string :=
  match s with
  | EmptyString => EmptyString
  | String c rest => String (lower_char c) (lower rest)
  end.

(** [fields[-1]] on the result of a split; the default is never used
    because a split has at least one field. *)
Definition last_field (fields : list string) : string :=
  List.last fields EmptyString.

(** [fields[1]] *)
Definition second_field (fields : list string) : option string :=
  fields !! 1%nat.

(** The order of [sorted] on strings: by character code, a proper
    prefix first. *)
Definition str_le (a b : string) : Prop := String.leb a b = true.

#[global] Instance str_le_dec (a b : string) : Decision (str_le a b) :=
  decide (String.leb a b = true).

(** [sorted(set(xs))] *)
Definition sorted_set (xs : list string) : list string :=
  merge_sort str_le (elements (list_to_set xs : gset string)).

End PyStr.

(** ** Exceptions *)

Module Py.

(** The exceptions the script can meet.  [SystemExit] is the only one
    that is not a subclass of [Exception]. *)
Inductive exn : Type :=
| Exception (msg : string)
| AttributeError (msg : string)
| OSError (msg : string)
| IndexError (msg : string)
| KeyError (key : string)
| EOFError
| SystemExit (code : Z).

(** [isinstance(e, Exception)], the test of [except Exception]. *)
Definition is_Exception (e : exn) : bool :=
  match e with
  | SystemExit _ => false
  | _ => true
  end.

(** [str(e)] *)
Definition str (e : exn) : string :=
  match e with
  | Exception msg | AttributeError msg | OSError msg | IndexError msg => msg
  | KeyError key => "'" ++ key ++ "'"
  | EOFError => ""
  | SystemExit code => pretty code
  end.

Inductive result (A : Type) : Type :=
| Ok (a : A)
| Raise (e : exn).

Arguments Ok {A} a.
Arguments Raise {A} e.

Definition raised {A} (r : result A) : bool :=
  match r with
  | Ok _ => false
  | Raise _ => true
  end.

End Py.

Export Py.

(** ** The two working areas on disk *)

Module FS.

Record file : Type := File { file_read_only : bool; file_content : string }.

(** A directory: its own read-only attribute, its files and its
    subdirectories, by name. *)
Inductive tree : Type :=
| Tree (read_only : bool) (files : list (string * file)) (dirs : list (string * tree)).

Definition tree_read_only (t : tree) : bool := let 'Tree ro _ _ := t in ro.
Definition tree_files (t : tree) : list (string * file) := let 'Tree _ fs _ := t in fs.
Definition tree_dirs (t : tree) : list (string * tree) := let 'Tree _ _ ds := t in ds.

(** [BASE_REPO_DIR = Path("./base_repo").absolute()] and
    [MERGE_REPO_DIR = Path("./merge_repo").absolute()]: the only two
    paths the script touches. *)
Inductive Repo : Type := BASE_REPO_DIR | MERGE_REPO_DIR.

(** What is at the two paths: [None] when the directory is absent. *)
Record Disk : Type := MkDisk { base_repo : option tree; merge_repo : option tree }.

Definition area_at (d : Disk) (r : Repo) : option tree :=
  match r with
  | BASE_REPO_DIR => base_repo d
  | MERGE_REPO_DIR => merge_repo d
  end.

Definition set_area (d : Disk) (r : Repo) (a : option tree) : Disk :=
  match r with
  | BASE_REPO_DIR => MkDisk a (merge_repo d)
  | MERGE_REPO_DIR => MkDisk (base_repo d) a
  end.

(** [repo.exists()] *)
Definition exists_ (d : Disk) (r : Repo) : bool := bool_decide (is_Some (area_at d r)).

(** Removal primitives.  Each returns what is left at the path: [None]
    when the object is gone, [Some] when the call raised.  An object
    resists removal through its read-only attribute (the behaviour of
    the platform that [stat.S_IWRITE] and [os.startfile] address); a
    directory must also be empty. *)
Definition os_unlink (f : file) : option file :=
  if file_read_only f then Some f else None.

Definition os_rmdir (t : tree) : option tree :=
  match t with
  | Tree false [] [] => None
  | _ => Some t
  end.

(** [os.chmod(path, stat.S_IWRITE)] clears the read-only attribute. *)
Class Chmod (X : Type) := chmod_S_IWRITE : X -> X.

#[global] Instance chmod_file : Chmod file :=
  fun f => File false (file_content f).

#[global] Instance chmod_tree : Chmod tree :=
  fun t => Tree false (tree_files t) (tree_dirs t).

(** The shape of an [onerror] callback: given the function that raised
    and the object at the path, what is left ([Some]: the callback
    itself raised, which aborts [rmtree]). *)
Definition handler : Type := forall X, Chmod X -> (X -> option X) -> X -> option X.

(** The callback of [cleanup]:
    [os.chmod(path, stat.S_IWRITE); func(path)]. *)
Definition onerror : handler :=
  fun X chmod func x => func (chmod x).

(** [shutil.rmtree] without a callback re-raises the first error. *)
Definition reraise : handler :=
  fun X chmod func x => Some x.

(** [try: func(path) except OSError: onerror(func, path, ...)] *)
Definition attempt (h : handler) {X} `{Chmod X} (func : X -> option X) (x : X) : option X :=
  match func x with
  | None => None
  | Some x' => h X _ func x'
  end.

(** Unlink the files of a directory in order, stopping at the first
    one the callback gives up on. *)
Fixpoint unlink_all (h : handler) (fs : list (string * file)) : list (string * file) :=
  match fs with
  | [] => []
  | (name, f) :: rest =>
      match attempt h os_unlink f with
      | None => unlink_all h rest
      | Some f' => (name, f') :: rest
      end
  end.

(** [shutil.rmtree(path, onerror=h)]: empty the directory, depth
    first, then remove it.  The result is what is left at [path]. *)
Fixpoint rmtree (h : handler) (t : tree) : option tree :=
  match t with
  | Tree ro fs ds =>
      let fix rm_dirs (ds : list (string * tree)) : list (string * tree) :=
        match ds with
        | [] => []
        | (name, d) :: rest =>
            match rmtree h d with
            | None => rm_dirs rest
            | Some d' => (name, d') :: rest
            end
        end in
      match unlink_all h fs with
      | [] =>
          match rm_dirs ds with
          | [] => attempt h os_rmdir (Tree ro [] [])
          | ds' => Some (Tree ro [] ds')
          end
      | fs' => Some (Tree ro fs' ds)
      end
  end.


End FS.

Export FS.

(** ** The world the script runs in *)

Module Sys.

(** A process the script starts: [subprocess.run(cmd, cwd=cwd,
    shell=True, capture_output=capture, text=True)] or the
    [Popen(["git", "clone", "--progress", url, target])] of
    [clone_repo]. *)
Inductive Invocation : Type :=
| Run (cmd : string) (cwd : Repo) (capture : bool)
| GitClone (url : string) (target : Repo).

(** What a finished process did: its exit status, the text it wrote and
    the disk it left. *)
Record Response : Type := MkResponse {
  exit_code : Z;
  out : string;
  err : string;
  disk_after : Disk
}.

(** One analytics entry: [{"cmd": ..., "success": ...}] (the "time"
    entry is left out with the clock). *)
Record ExecutionRecord : Type := MkRecord { rec_cmd : string; rec_success : bool }.

(** What an observer of the run sees, in order. *)
Inductive Event : Type :=
| Spawned (i : Invocation) (code : Z)
| Printed (msg : string)
| PrintedTable (title : string) (rows : list (list string))
| PrintedAnalytics (rows : list ExecutionRecord)
| Progress (advances : nat)
| Asked (prompt : string)
| Startfile (path : Repo)
| Removed (path : Repo)
| OpenedLog (name : string)
| ClosedLog (name : string).

(** The rest of the universe: how an external process answers, given
    everything that happened so far and the disk it finds. *)
Definition Oracle : Type := list Event -> Disk -> Invocation -> Response.

(** [missing_dir_error] is the text of the [OSError] raised for a
    missing directory at one of the two paths; [which] is
    [shutil.which(dep) is not None]. *)
Record World : Type := MkWorld {
  disk : Disk;
  trace : list Event;
  stdin : list string;
  ANALYTICS : list ExecutionRecord;
  LOGFILE_HANDLE : option string;
  SUCCESS : bool;
  os_name : string;
  which : string -> bool;
  missing_dir_error : Repo -> string;
  respond : Oracle
}.

Definition with_disk (d : Disk) (w : World) : World :=
  MkWorld d (trace w) (stdin w) (ANALYTICS w) (LOGFILE_HANDLE w) (SUCCESS w)
          (os_name w) (which w) (missing_dir_error w) (respond w).

Definition with_trace (t : list Event) (w : World) : World :=
  MkWorld (disk w) t (stdin w) (ANALYTICS w) (LOGFILE_HANDLE w) (SUCCESS w)
          (os_name w) (which w) (missing_dir_error w) (respond w).

Definition with_stdin (i : list string) (w : World) : World :=
  MkWorld (disk w) (trace w) i (ANALYTICS w) (LOGFILE_HANDLE w) (SUCCESS w)
          (os_name w) (which w) (missing_dir_error w) (respond w).

Definition with_ANALYTICS (a : list ExecutionRecord) (w : World) : World :=
  MkWorld (disk w) (trace w) (stdin w) a (LOGFILE_HANDLE w) (SUCCESS w)
          (os_name w) (which w) (missing_dir_error w) (respond w).

Definition with_LOGFILE_HANDLE (h : option string) (w : World) : World :=
  MkWorld (disk w) (trace w) (stdin w) (ANALYTICS w) h (SUCCESS w)
          (os_name w) (which w) (missing_dir_error w) (respond w).

Definition with_SUCCESS (b : bool) (w : World) : World :=
  MkWorld (disk w) (trace w) (stdin w) (ANALYTICS w) (LOGFILE_HANDLE w) b
          (os_name w) (which w) (missing_dir_error w) (respond w).

Definition emit (e : Event) (w : World) : World := with_trace (trace w ++ [e]) w.

(** A computation of the script: it may change the world and either
    returns or raises. *)
Definition M (A : Type) : Type := World -> result A * World.

Definition ret {A} (a : A) : M A := fun w => (Ok a, w).

Definition raise {A} (e : exn) : M A := fun w => (Raise e, w).

Definition bind {A B} (m : M A) (k : A -> M B) : M B :=
  fun w =>
    match m w with
    | (Ok a, w') => k a w'
    | (Raise e, w') => (Raise e, w')
    end.

(** [try: body except Exception as e: handle(e)] *)
Definition try_except {A} (body : M A) (handle : exn -> M A) : M A :=
  fun w =>
    match body w with
    | (Ok a, w') => (Ok a, w')
    | (Raise e, w') => if is_Exception e then handle e w' else (Raise e, w')
    end.

(** [try: body finally: final]: [final] always runs; what it raises
    replaces the outcome of [body]. *)
Definition try_finally {A} (body : M A) (final : M unit) : M A :=
  fun w =>
    match body w with
    | (r, w') =>
        match final w' with
        | (Ok _, w'') => (r, w'')
        | (Raise e, w'') => (Raise e, w'')
        end
    end.

Definition get {A} (f : World -> A) : M A := fun w => (Ok (f w), w).

Definition modify (f : World -> World) : M unit := fun w => (Ok tt, f w).

Definition when (b : bool) (m : M unit) : M unit := if b then m else ret tt.

(** [for x in xs: body(x)] *)
Fixpoint for_each {A} (xs : list A) (body : A -> M unit) : M unit :=
  match xs with
  | [] => ret tt
  | x :: rest => bind (body x) (fun _ => for_each rest body)
  end.

End Sys.

Export Sys.

Declare Scope py_scope.
Delimit Scope py_scope with py.
Notation "x <- m ;; k" := (bind m (fun x => k))
  (at level 100, m at next level, right associativity) : py_scope.
Notation "m ;; k" := (bind m (fun _ => k))
  (at level 100, right associativity) : py_scope.
Local Open Scope py_scope.

(** ** Library calls of the script *)

Module Lib.

(** [subprocess.CompletedProcess]: [stdout] and [stderr] are [None]
    when the output was not captured. *)
Record CompletedProcess : Type := MkCompleted {
  returncode : Z;
  stdout : option string;
  stderr : option string
}.

(** [subprocess.run(cmd, cwd=cwd, shell=True, capture_output=capture,
    text=True)]: an [OSError] when the working directory is missing
    (its text, which names the absolute path, is the platform's), else
    the process runs to its end. *)
Definition subprocess_run (cmd : string) (cwd : Repo) (capture : bool) : M CompletedProcess :=
  fun w =>
    match area_at (disk w) cwd with
    | None => (Raise (OSError (missing_dir_error w cwd)), w)
    | Some _ =>
        let r := respond w (trace w) (disk w) (Run cmd cwd capture) in
        (Ok (MkCompleted (exit_code r)
                         (if capture then Some (out r) else None)
                         (if capture then Some (err r) else None)),
         emit (Spawned (Run cmd cwd capture) (exit_code r)) (with_disk (disk_after r) w))
    end.

(** [subprocess.Popen(["git", "clone", "--progress", url, target],
    stdout=PIPE, stderr=PIPE, text=True)], read to its end: the text
    of its standard error and its return code. *)
Definition popen_git_clone (url : string) (target : Repo) : M (string * Z) :=
  fun w =>
    let r := respond w (trace w) (disk w) (GitClone url target) in
    (Ok (err r, exit_code r),
     emit (Spawned (GitClone url target) (exit_code r)) (with_disk (disk_after r) w)).

(** The lines a text-mode file object yields: universal newlines, so a
    line ends at LF, CR or CR LF. *)
Fixpoint readlines (s : string) : list string :=
  match s with
  | EmptyString => []
  | String c rest =>
      if (Ascii.eqb c PyStr.LF || Ascii.eqb c PyStr.CR)%bool then
        match rest with
        | String c' rest' =>
            if (Ascii.eqb c PyStr.CR && Ascii.eqb c' PyStr.LF)%bool
            then EmptyString :: readlines rest'
            else EmptyString :: readlines rest
        | EmptyString => [EmptyString]
        end
      else
        match readlines rest with
        | [] => [String c EmptyString]
        | line :: lines => String c line :: lines
        end
  end.

(** [print], [console.print] and [console.log] *)
Definition print (msg : string) : M unit := modify (emit (Printed msg)).

(** [x.strip()] where [x] may be [None] *)
Definition strip_of (x : option string) : M string :=
  match x with
  | Some s => ret (PyStr.strip s)
  | None => raise (AttributeError "'NoneType' object has no attribute 'strip'")
  end.

(** One round of rich's prompt loop per line of input: an empty line
    takes the default when there is one; otherwise the stripped line
    is returned if it is among the choices (or there are none), and
    the prompt is shown again if it is not.  Without input left the
    read raises [EOFError]. *)
Fixpoint prompt_loop (prompt : string) (choices : option (list string))
    (default : option string) (input : list string) : result string * list string * list Event :=
  match input with
  | [] => (Raise EOFError, [], [Asked prompt])
  | line :: rest =>
      match (if String.eqb line "" then default else None) with
      | Some d => (Ok d, rest, [Asked prompt])
      | None =>
          let value := PyStr.strip line in
          match choices with
          | Some cs =>
              if bool_decide (value ∈ cs) then (Ok value, rest, [Asked prompt])
              else
                let '(r, rest', evs) := prompt_loop prompt choices default rest in
                (r, rest', Asked prompt :: Printed "Please select one of the available options" :: evs)
          | None => (Ok value, rest, [Asked prompt])
          end
      end
  end.

(** [Prompt.ask(prompt, choices=choices, default=default)] *)
Definition Prompt_ask (prompt : string) (choices : option (list string))
    (default : option string) : M string :=
  fun w =>
    let '(r, rest, evs) := prompt_loop prompt choices default (stdin w) in
    (r, with_trace (trace w ++ evs) (with_stdin rest w)).

(** [shutil.rmtree(repo, onerror=h)] *)
Definition shutil_rmtree (repo : Repo) (h : handler) : M unit :=
  fun w =>
    match area_at (disk w) repo with
    | None => (Raise (OSError (missing_dir_error w repo)), w)
    | Some t =>
        match rmtree h t with
        | None => (Ok tt, emit (Removed repo) (with_disk (set_area (disk w) repo None) w))
        | Some t' =>
            (Raise (OSError "[Errno 13] Permission denied"),
             with_disk (set_area (disk w) repo (Some t')) w)
        end
    end.

(** Truth value of an optional string: neither [None] nor empty. *)
Definition truthy (x : option string) : bool :=
  match x with
  | Some (String _ _) => true
  | _ => false
  end.

End Lib.

Export Lib.

(** ** The script *)

(** The parsed command line ([args]) and the two environment
    variables. *)
Module Args.

Record t : Type := Make {
  verbose : bool;
  debug : bool;
  analytics : bool;
  logfile : option string;
  retry : bool;
  merge_conflict_base : bool;
  merge_conflict_side : bool;
  merge_preview : bool;
  show_diff : bool;
  smart : bool;
  y : bool;
  base_branch : option string;
  GITMERGE_BASE : option string;
  GITMERGE_MERGE : option string
}.

End Args.

Module Merger.

Section Script.

Variable args : Args.t.

Definition run_cmd (cmd : string) (cwd : Repo) (live_output : bool) : M string :=
  result <- subprocess_run cmd cwd (negb live_output);;
  let output := if negb live_output then stdout result else Some "" in
  when (Args.analytics args)
    (modify (fun w => with_ANALYTICS
       (ANALYTICS w ++ [MkRecord cmd (returncode result =? 0)%Z]) w));;
  when (Args.debug args)
    (print ("[DEBUG] Command: " ++ cmd);;
     print ("[DEBUG] Exit Code: " ++ pretty (returncode result));;
     text <- strip_of output;;
     print ("[DEBUG] Output: " ++ text));;
  if negb (returncode result =? 0)%Z then
    text <- strip_of (stderr result);;
    print ("[red]Error: " ++ text ++ "[/red]");;
    raise (Exception ("Command failed: " ++ cmd))
  else strip_of output.

Definition cleanup : M unit :=
  for_each [BASE_REPO_DIR; MERGE_REPO_DIR] (fun repo =>
    there <- get (fun w => exists_ (disk w) repo);;
    when there (shutil_rmtree repo onerror)).

Definition check_deps : M unit :=
  for_each ["git"; "git-filter-repo"] (fun dep =>
    found <- get (fun w => which w dep);;
    if found then ret tt
    else (print ("[red]Missing dependency: " ++ dep ++ "[/red]");;
          raise (SystemExit 1))).

Definition clone_repo (url : string) (target : Repo) : M Z :=
  process <- popen_git_clone url target;;
  modify (emit (Progress (length (List.filter (fun line => PyStr.contains "%" line)
                                               (readlines (fst process))))));;
  ret (snd process).

(** The comprehension and the [sorted(set(...))] of [list_branches]. *)
Definition branches_of (raw : string) : list string :=
  PyStr.sorted_set
    (map (fun line => PyStr.last_field (PyStr.split "/" (PyStr.strip line)))
         (List.filter (fun line => negb (PyStr.contains "->" line) && negb (PyStr.contains "HEAD" line))
                      (PyStr.splitlines raw))).

Definition list_branches (repo_dir : Repo) : M (list string) :=
  raw <- run_cmd "git branch -r" repo_dir false;;
  ret (branches_of raw).

(** The [for] loop of [get_head_branch]: both branches of its body
    return, so only the first line is looked at. *)
Definition head_branch_of (output : string) : M (option string) :=
  match PyStr.splitlines output with
  | line :: _ =>
      if PyStr.contains "HEAD branch:" line then
        match PyStr.second_field (PyStr.split ":" line) with
        | Some name => ret (Some (PyStr.strip name))
        | None => raise (IndexError "list index out of range")
        end
      else ret None
  | [] => ret None
  end.

Definition get_head_branch (repo_dir : Repo) : M (option string) :=
  try_except
    (output <- run_cmd "git remote show origin" repo_dir false;;
     head_branch_of output)
    (fun _ => ret (Some "main")).

Definition filter_repo_to_subdir (repo_dir_ : Repo) (subdir_ : string) : M unit :=
  try_except
    (run_cmd ("git-filter-repo --to-subdirectory-filter " ++ subdir_ ++ " --force") repo_dir_ false;;
     ret tt)
    (fun e => print (str e);; raise (SystemExit 1)).

Definition open_dir (path : Repo) : M unit :=
  nt <- get (fun w => String.eqb (os_name w) "nt");;
  when nt (modify (emit (Startfile path))).

(** [f"git log origin/{b} -1 --format=%ci"] *)
Definition date_cmd (b : string) : string := "git log origin/" ++ b ++ " -1 --format=%ci".

(** The loop of [get_commit_dates], from the entries collected so far. *)
Fixpoint get_commit_dates_from (results : gmap string string) (repo_dir : Repo)
    (branches : list string) : M (gmap string string) :=
  match branches with
  | [] => ret results
  | b :: rest =>
      results' <- try_except
                    (date <- run_cmd (date_cmd b) repo_dir false;;
                     ret (<[b := date]> results))
                    (fun _ => ret (<[b := "N/A"]> results));;
      get_commit_dates_from results' repo_dir rest
  end.

Definition get_commit_dates (repo_dir : Repo) (branches : list string) : M (gmap string string) :=
  get_commit_dates_from ∅ repo_dir branches.

(** [table.add_row(b, dates[b])] for every branch. *)
Fixpoint table_rows (dates : gmap string string) (branches : list string) : M (list (list string)) :=
  match branches with
  | [] => ret []
  | b :: rest =>
      match dates !! b with
      | Some date => rows <- table_rows dates rest;; ret ([b; date] :: rows)
      | None => raise (KeyError b)
      end
  end.

(** [branches[0]] *)
Definition item0 (branches : list string) : M string :=
  match branches with
  | first :: _ => ret first
  | [] => raise (IndexError "list index out of range")
  end.

Definition choose_branch (repo_dir : Repo) : M string :=
  branches <- list_branches repo_dir;;
  head <- get_head_branch repo_dir;;
  dates <- get_commit_dates repo_dir branches;;
  rows <- table_rows dates branches;;
  modify (emit (PrintedTable "Available Branches" rows));;
  default <- match head with
             | Some name => if bool_decide (name ∈ branches) then ret name else item0 branches
             | None => item0 branches
             end;;
  Prompt_ask "Select branch to merge" (Some branches) (Some default).

(** [strategy_flag] of [perform_merge]. *)
Definition strategy_flag_of (conflict_strategy : option string) : string :=
  match conflict_strategy with
  | Some side =>
      if String.eqb side "base" then "-X ours"
      else if String.eqb side "side" then "-X theirs"
      else ""
  | None => ""
  end.

(** [f"git merge merge_repo/HEAD --allow-unrelated-histories {strategy_flag}".strip()] *)
Definition base_merge_cmd (strategy_flag : string) : string :=
  PyStr.strip ("git merge merge_repo/HEAD --allow-unrelated-histories " ++ strategy_flag).

(** The [else] branch of the handler in [perform_merge]: what is done
    about a failed merge that is taken for a content conflict. *)
Definition on_conflict (subdir_ : string) : M unit :=
  print ("[yellow]Merge conflict occurred while merging into '" ++ subdir_ ++ "'[/yellow]");;
  if Args.merge_conflict_side args then
    (run_cmd "git merge --strategy=recursive -X theirs merge_repo/HEAD" BASE_REPO_DIR true;;
     ret tt)
  else if Args.merge_conflict_base args then
    (run_cmd "git merge --strategy=recursive -X ours merge_repo/HEAD" BASE_REPO_DIR true;;
     ret tt)
  else if Args.y args then ret tt
  else
    (open_dir BASE_REPO_DIR;;
     Prompt_ask "Resolve conflicts in subdir '{subdir_}' then press Enter" None None;;
     ret tt).

(** The [try]/[except] at the end of [perform_merge]: the merge
    attempt and the routing of its failure. *)
Definition merge_attempt (subdir_ strategy_flag : string) : M unit :=
  try_except
    (run_cmd (base_merge_cmd strategy_flag) BASE_REPO_DIR true;; ret tt)
    (fun e =>
       if PyStr.contains "unrelated histories" (PyStr.lower (str e)) then
         (run_cmd (base_merge_cmd strategy_flag) BASE_REPO_DIR true;; ret tt)
       else on_conflict subdir_).

Definition perform_merge (base_branch_ subdir_ : string) (conflict_strategy : option string) : M unit :=
  run_cmd ("git checkout " ++ base_branch_) BASE_REPO_DIR false;;
  run_cmd "git remote add merge_repo ../merge_repo" BASE_REPO_DIR false;;
  run_cmd "git fetch merge_repo" BASE_REPO_DIR false;;
  if Args.merge_preview args then
    (run_cmd "git log --graph --oneline --all" BASE_REPO_DIR false;;
     run_cmd "git ls-tree -r HEAD" BASE_REPO_DIR false;;
     ret tt)
  else
    ((if Args.show_diff args then
        (answer <- Prompt_ask "Show diff before merge?" (Some ["yes"; "no"]) None;;
         when (String.eqb answer "yes")
           (run_cmd "git diff HEAD merge_repo/HEAD" BASE_REPO_DIR true;; ret tt))
      else ret tt);;
     merge_attempt subdir_ (strategy_flag_of conflict_strategy)).

Definition show_git_stat : M unit :=
  when (Args.verbose args)
    (print "[bold blue]Merge Summary:[/bold blue]";;
     run_cmd "git diff --stat" BASE_REPO_DIR true;;
     ret tt).

Definition print_analytics : M unit :=
  if negb (Args.analytics args) then ret tt
  else (rows <- get ANALYTICS;; modify (emit (PrintedAnalytics rows))).

(** The body of the [try] block at the end of the script. *)
Definition session_body : M unit :=
  when (negb (Args.retry args)) cleanup;;
  base_url <- (if negb (truthy (Args.GITMERGE_BASE args)) then Prompt_ask "Base repo URL" None None
               else ret (default "" (Args.GITMERGE_BASE args)));;
  merge_url <- (if negb (truthy (Args.GITMERGE_MERGE args)) then Prompt_ask "Repo to merge in" None None
                else ret (default "" (Args.GITMERGE_MERGE args)));;
  subdir <- (if negb (Args.y args) then Prompt_ask "Subdirectory to move merged code into" None None
             else ret "merged_content");;
  clone_repo base_url BASE_REPO_DIR;;
  clone_repo merge_url MERGE_REPO_DIR;;
  merge_branch <- choose_branch MERGE_REPO_DIR;;
  run_cmd ("git checkout " ++ merge_branch) MERGE_REPO_DIR false;;
  filter_repo_to_subdir MERGE_REPO_DIR subdir;;
  base_branch <- (if truthy (Args.base_branch args) then ret (default "" (Args.base_branch args))
                  else Prompt_ask "Target branch to merge into" None (Some "main"));;
  perform_merge base_branch subdir
    (if Args.merge_conflict_base args then Some "base"
     else if Args.merge_conflict_side args then Some "side"
     else None);;
  show_git_stat;;
  answer <- Prompt_ask "Push to origin?" (Some ["yes"; "no"]) (Some "no");;
  when (String.eqb answer "yes") (run_cmd "git push origin HEAD" BASE_REPO_DIR false;; ret tt);;
  print_analytics;;
  modify (with_SUCCESS true).

(** The [finally] block. *)
Definition session_finally : M unit :=
  handle <- get LOGFILE_HANDLE;;
  match handle with
  | Some name => modify (emit (ClosedLog name))
  | None => ret tt
  end;;
  succeeded <- get SUCCESS;;
  when (negb succeeded) cleanup.

(** [try: ... finally: ...] *)
Definition session : M unit := try_finally session_body session_finally.

(** The script from argument parsing on. *)
Definition main : M unit :=
  match Args.logfile args with
  | Some (String c name) =>
      modify (fun w => emit (OpenedLog (String c name)) (with_LOGFILE_HANDLE (Some (String c name)) w))
  | _ => ret tt
  end;;
  (if Args.merge_conflict_base args && Args.merge_conflict_side args then
     (print "[red]Cannot use both --merge-conflict-base and --merge-conflict-side[/red]";;
      raise (SystemExit 1))
   else ret tt);;
  check_deps;;
  modify (with_SUCCESS false);;
  session.

End Script.

(** The exit status of the interpreter after [main]. *)
Definition exit_status (r : result unit) : Z :=
  match r with
  | Ok _ => 0
  | Raise (SystemExit code) => code
  | Raise _ => 1
  end.

End Merger.

Export Merger.

(** ** A scripted environment for concrete runs *)

Module Fixture.

(** Text of several lines, each ended by LF. *)
Definition text (lines : list string) : string :=
  fold_right (fun line rest => line ++ String PyStr.LF rest) "" lines.

(** A fresh clone: two tracked files and a read-only pack file under
    [.git], as git leaves them. *)
Definition clone_of (url : string) : tree :=
  Tree false
       [("README.md", File false url); ("shared.txt", File false ("from " ++ url))]
       [(".git", Tree false [] [("objects", Tree true [("pack", File true "objects")] [])])].

Record Answer : Type := MkAnswer {
  ans_code : Z;
  ans_out : string;
  ans_err : string;
  ans_disk : Disk -> Disk
}.

Definition lookup_answer (cmd : string) (answers : list (string * Answer)) : option Answer :=
  snd <$> List.find (fun a => String.eqb (fst a) cmd) answers.

(** An environment that answers from a table: a listed command
    answers as listed (a clone is listed as [git clone <url>]), a clone
    that is not listed succeeds and creates its target, every other
    command succeeds silently. *)
Definition scripted (answers : list (string * Answer)) : Oracle :=
  fun _ d i =>
    match i with
    | GitClone url target =>
        match lookup_answer ("git clone " ++ url) answers with
        | Some a => MkResponse (ans_code a) (ans_out a) (ans_err a) (ans_disk a d)
        | None =>
            MkResponse 0 ""
                       (text ["Receiving objects:  50% (1/2)"; "Receiving objects: 100% (2/2)"])
                       (set_area d target (Some (clone_of url)))
        end
    | Run cmd _ _ =>
        match lookup_answer cmd answers with
        | Some a => MkResponse (ans_code a) (ans_out a) (ans_err a) (ans_disk a d)
        | None => MkResponse 0 "" "" d
        end
    end.

Definition says (out : string) : Answer := MkAnswer 0 out "" id.

Definition fails (code : Z) (err : string) : Answer := MkAnswer code "" err id.

Definition world (d : Disk) (answers : list (string * Answer)) (input : list string) : World :=
  MkWorld d [] input [] None false "posix" (fun _ => true)
          (fun repo =>
             match repo with
             | BASE_REPO_DIR => "[Errno 2] No such file or directory: '/work/base_repo'"
             | MERGE_REPO_DIR => "[Errno 2] No such file or directory: '/work/merge_repo'"
             end)
          (scripted answers).

Definition empty_disk : Disk := MkDisk None None.

Definition cloned_disk : Disk :=
  MkDisk (Some (clone_of "https://example.org/base.git"))
         (Some (clone_of "https://example.org/in.git")).

(** What [git branch -r] prints for remote branches main, dev, main and
    the HEAD pointer. *)
Definition branch_listing : string :=
  text ["  origin/HEAD -> origin/main"; "  origin/main"; "  origin/dev"; "  origin/main"].

(** What [git remote show origin] prints. *)
Definition remote_show : string :=
  text ["* remote origin"; "  Fetch URL: https://example.org/in.git"; "  HEAD branch: main"].

Definition no_flags : Args.t :=
  Args.Make false false false None false false false false false false false None None None.

(** [-y] with both URLs taken from the environment. *)
Definition args_y : Args.t :=
  Args.Make false false false None false false false false false false true None
            (Some "https://example.org/base.git") (Some "https://example.org/in.git").

(** [--retry -y], both URLs from the environment. *)
Definition args_retry : Args.t :=
  Args.Make false false false None true false false false false false true None
            (Some "https://example.org/base.git") (Some "https://example.org/in.git").


(** A listing, a default branch and a date for main; the lookup for dev
    fails. *)
Definition probe_answers : list (string * Answer) :=
  [("git branch -r", says branch_listing);
   ("git remote show origin", says remote_show);
   ("git log origin/dev -1 --format=%ci", fails 128 "fatal: bad revision 'origin/dev'");
   ("git log origin/main -1 --format=%ci", says (text ["2024-05-01 10:00:00 +0000"]))].






End Fixture.

(** ** Vocabulary of the statements *)


(** [b] occurs in [s]. *)
Definition substring (b s : string) : Prop := exists pre post, s = pre ++ b ++ post.

(** The processes started during a run, in order. *)
Fixpoint spawns (t : list Event) : list Invocation :=
  match t with
  | [] => []
  | Spawned i _ :: rest => i :: spawns rest
  | _ :: rest => spawns rest
  end.

(** The prompts shown during a run, in order. *)
Fixpoint asked (t : list Event) : list string :=
  match t with
  | [] => []
  | Asked prompt :: rest => prompt :: asked rest
  | _ :: rest => asked rest
  end.

(** A computation leaves a component of the world as it found it. *)
Definition keeps {X A} (f : World -> X) (m : M A) : Prop :=
  forall w, f (snd (m w)) = f w.


(** A component of the world that starting a process, printing and
    recording analytics do not touch. *)
Class Passive {X} (f : World -> X) : Prop := {
  passive_disk : forall d w, f (with_disk d w) = f w;
  passive_trace : forall t w, f (with_trace t w) = f w;
  passive_ANALYTICS : forall a w, f (with_ANALYTICS a w) = f w
}.



(** [run_cmd] spelled out, for a process that was started and answered
    [r]: what it returns or raises, what it prints, and the world it
    leaves. *)
Definition run_outcome (cmd : string) (live : bool) (r : Response) : result string :=
  if (exit_code r =? 0)%Z then Ok (if live then "" else PyStr.strip (out r))
  else if live then Raise (AttributeError "'NoneType' object has no attribute 'strip'")
  else Raise (Exception ("Command failed: " ++ cmd)).

(** What [run_cmd] writes to the console after the process ended. *)
Definition run_prints (args : Args.t) (cmd : string) (live : bool) (r : Response) : list Event :=
  (if Args.debug args then
     [Printed ("[DEBUG] Command: " ++ cmd);
      Printed ("[DEBUG] Exit Code: " ++ pretty (exit_code r));
      Printed ("[DEBUG] Output: " ++ (if live then "" else PyStr.strip (out r)))]
   else [])
  ++ (if (exit_code r =? 0)%Z || live then []
      else [Printed ("[red]Error: " ++ PyStr.strip (err r) ++ "[/red]")]).

(** The answer of the process that [run_cmd] starts in world [w]. *)
Definition answer_to (cmd : string) (cwd : Repo) (live : bool) (w : World) : Response :=
  respond w (trace w) (disk w) (Run cmd cwd (negb live)).

(** The world [run_cmd] leaves. *)
Definition run_world (args : Args.t) (cmd : string) (cwd : Repo) (live : bool) (w : World) : World :=
  let r := answer_to cmd cwd live w in
  MkWorld (disk_after r)
          (trace w ++ Spawned (Run cmd cwd (negb live)) (exit_code r) :: run_prints args cmd live r)
          (stdin w)
          (if Args.analytics args
           then ANALYTICS w ++ [MkRecord cmd (exit_code r =? 0)%Z]
           else ANALYTICS w)
          (LOGFILE_HANDLE w) (SUCCESS w) (os_name w) (which w) (missing_dir_error w) (respond w).

(** What a date lookup records for a branch. *)
Definition recorded (r : result string) : string :=
  match r with
  | Ok date => date
  | Raise _ => "N/A"
  end.

(** The conflict policy of a run, as the handler of [perform_merge]
    reads it from the flags. *)
Inductive ConflictPolicy : Type := NoPolicy | FavorBase | FavorIncoming.

Definition policy_of (args : Args.t) : ConflictPolicy :=
  if Args.merge_conflict_side args then FavorIncoming
  else if Args.merge_conflict_base args then FavorBase
  else NoPolicy.

(** The merge command that forces the side of a policy. *)
Definition forced_merge_cmd (policy : ConflictPolicy) : string :=
  match policy with
  | FavorIncoming => "git merge --strategy=recursive -X theirs merge_repo/HEAD"
  | FavorBase => "git merge --strategy=recursive -X ours merge_repo/HEAD"
  | NoPolicy => ""
  end.

Definition conflict_message (subdir : string) : string :=
  "[yellow]Merge conflict occurred while merging into '" ++ subdir ++ "'[/yellow]".


(** ** Vocabulary of the further properties *)

(** The processes started during a run with their exit codes, in
    order. *)
Fixpoint started (t : list Event) : list (Invocation * Z) :=
  match t with
  | [] => []
  | Spawned i code :: rest => (i, code) :: started rest
  | _ :: rest => started rest
  end.

(** What a computation adds to the processes started, together with
    its outcome. *)
Definition starts {A} (m : M A) (P : result A -> list (Invocation * Z) -> Prop) : Prop :=
  forall w, exists l,
    started (trace (snd (m w))) = (started (trace w) ++ l)%list /\ P (fst (m w)) l.

(** The footprint of one call of the runner for the process [i]:
    nothing is started and the call raises (the directory is
    missing), or the process exits non-zero and the call raises, or
    it exits zero and the call returns. *)
Definition one_process (i : Invocation) (r : result string) (l : list (Invocation * Z)) : Prop :=
  (l = [] /\ raised r = true)
  \/ (exists code, code <> 0%Z /\ l = [(i, code)] /\ raised r = true)
  \/ (l = [(i, 0%Z)] /\ raised r = false).

(** What the terminal saw of the operator: the prompts shown and the
    input still unread. *)
Definition dialogue (w : World) : list string * list string := (asked (trace w), stdin w).

(** The analytics entries that the processes started through the
    runner would give: one per [subprocess.run], none for a clone. *)
Fixpoint records_of (l : list (Invocation * Z)) : list ExecutionRecord :=
  match l with
  | [] => []
  | (Run cmd _ _, code) :: rest => MkRecord cmd (code =? 0)%Z :: records_of rest
  | (GitClone _ _, _) :: rest => records_of rest
  end.

(** The analytics list mirrors the processes started so far. *)
Definition analytics_in_step (w : World) : Prop :=
  ANALYTICS w = records_of (started (trace w)).

(** A computation keeps a property of the world. *)
Definition preserves {A} (I : World -> Prop) (m : M A) : Prop :=
  forall w, I w -> I (snd (m w)).

(** A character does not occur in a string. *)
Definition free_of (c : ascii) (s : string) : Prop := PyStr.contains (String c EmptyString) s = false.

(** The first and the last character of a string, if any. *)
Definition first_char (s : string) : option ascii :=
  match s with
  | EmptyString => None
  | String c _ => Some c
  end.

Fixpoint last_char (s : string) : option ascii :=
  match s with
  | EmptyString => None
  | String c EmptyString => Some c
  | String _ rest => last_char rest
  end.

(** Neither the first nor the last character is whitespace. *)
Definition trimmed (s : string) : Prop :=
  (forall c, first_char s = Some c -> PyStr.is_space c = false)
  /\ (forall c, last_char s = Some c -> PyStr.is_space c = false).


(** ** Further flag settings and outputs for concrete runs *)

Module Scenes.

Import Fixture.

(** [--merge-preview] *)
Definition args_preview : Args.t :=
  Args.Make false false false None false false false true false false false None None None.


(** [--merge-conflict-base --merge-conflict-side] *)
Definition args_both : Args.t :=
  Args.Make false false false None false true true false false false false None None None.

(** What [git branch -r] prints for remote branches feature/login and
    main. *)
Definition nested_listing : string := text ["  origin/feature/login"; "  origin/main"].


End Scenes.

(** * Theorems *)

(** ** Removing a working area *)



(** Without it, the read-only pack file of a fresh clone stops the
    removal. *)
Example rmtree_needs_the_callback :
  rmtree reraise (Fixture.clone_of "u") <> None /\ rmtree onerror (Fixture.clone_of "u") = None.
Proof. split; [discriminate | reflexivity]. Qed.

(** ** Frame rules: what a computation leaves alone *)

Section Keeps.

Context {X : Type} (f : World -> X).

Lemma keeps_ret {A} (a : A) : keeps f (ret a).
Proof. intros w. reflexivity. Qed.

Lemma keeps_raise {A} (e : exn) : keeps f (raise (A := A) e).
Proof. intros w. reflexivity. Qed.

Lemma keeps_get {A} (g : World -> A) : keeps f (get g).
Proof. intros w. reflexivity. Qed.

Lemma keeps_bind {A B} (m : M A) (k : A -> M B) :
  keeps f m -> (forall a, keeps f (k a)) -> keeps f (bind m k).
Proof.
  intros Hm Hk w. unfold bind. specialize (Hm w).
  destruct (m w) as [[a|e] w']; simpl in *; [|exact Hm].
  rewrite (Hk a w'). exact Hm.
Qed.

Lemma keeps_try_except {A} (body : M A) (handle : exn -> M A) :
  keeps f body -> (forall e, keeps f (handle e)) -> keeps f (try_except body handle).
Proof.
  intros Hb Hh w. unfold try_except. specialize (Hb w).
  destruct (body w) as [[a|e] w']; simpl in *; [exact Hb|].
  destruct (is_Exception e); simpl; [|exact Hb].
  rewrite (Hh e w'). exact Hb.
Qed.

Lemma keeps_when (b : bool) (m : M unit) : keeps f m -> keeps f (when b m).
Proof. intros Hm. destruct b; [exact Hm | apply keeps_ret]. Qed.

Lemma keeps_for_each {A} (xs : list A) (body : A -> M unit) :
  (forall x, keeps f (body x)) -> keeps f (for_each xs body).
Proof.
  intros Hb. induction xs as [|x xs IH]; simpl; [apply keeps_ret|].
  apply keeps_bind; [apply Hb | intros _; exact IH].
Qed.

End Keeps.

#[global] Instance SUCCESS_passive : Passive SUCCESS.
Proof. split; reflexivity. Qed.

#[global] Instance stdin_passive : Passive stdin.
Proof. split; reflexivity. Qed.

Section KeepsPassive.

Context {X : Type} (f : World -> X) `{!Passive f}.

Lemma passive_emit (e : Event) (w : World) : f (emit e w) = f w.
Proof. apply passive_trace. Qed.

Lemma keeps_emit (e : Event) : keeps f (modify (emit e)).
Proof. intros w. apply passive_emit. Qed.

Lemma keeps_print (msg : string) : keeps f (print msg).
Proof. apply keeps_emit. Qed.

Lemma keeps_subprocess_run (cmd : string) (cwd : Repo) (capture : bool) :
  keeps f (subprocess_run cmd cwd capture).
Proof.
  intros w. unfold subprocess_run. destruct (area_at (disk w) cwd); [|reflexivity].
  cbn [snd]. rewrite passive_emit. apply passive_disk.
Qed.

Lemma keeps_popen (url : string) (target : Repo) : keeps f (popen_git_clone url target).
Proof. intros w. unfold popen_git_clone. cbn [snd]. rewrite passive_emit. apply passive_disk. Qed.

Lemma keeps_strip_of (x : option string) : keeps f (strip_of x).
Proof. destruct x; [apply keeps_ret | apply keeps_raise]. Qed.

Lemma keeps_rmtree (repo : Repo) (h : handler) : keeps f (shutil_rmtree repo h).
Proof.
  intros w. unfold shutil_rmtree.
  destruct (area_at (disk w) repo) as [t|]; [|reflexivity].
  destruct (rmtree h t); cbn [snd]; rewrite ?passive_emit; apply passive_disk.
Qed.

Lemma keeps_ANALYTICS (g : World -> list ExecutionRecord) :
  keeps f (modify (fun w => with_ANALYTICS (g w) w)).
Proof. intros w. apply passive_ANALYTICS. Qed.

End KeepsPassive.

(** The prompt reads from the terminal but leaves the flag alone. *)
Lemma keeps_SUCCESS_Prompt_ask (prompt : string) (choices : option (list string))
    (default : option string) : keeps SUCCESS (Prompt_ask prompt choices default).
Proof.
  intros w. unfold Prompt_ask.
  destruct (prompt_loop prompt choices default (stdin w)) as [[r rest] evs]. reflexivity.
Qed.

Create HintDb keeps discriminated.

#[local] Hint Resolve keeps_ret keeps_raise keeps_get keeps_when
  keeps_emit keeps_print keeps_subprocess_run keeps_popen
  keeps_strip_of keeps_SUCCESS_Prompt_ask keeps_rmtree keeps_ANALYTICS : keeps.

(** Walk through a computation built from binds, handlers, loops and
    conditionals, closing the leaves with the hints. *)
Ltac keeps_step :=
  first
    [ solve [auto with keeps typeclass_instances]
    | apply keeps_bind; [|intros ?]
    | apply keeps_try_except; [|intros ?]
    | apply keeps_for_each; intros ?
    | apply keeps_when
    | match goal with
      | |- keeps _ (if ?b then _ else _) => destruct b
      | |- keeps _ (match ?x with _ => _ end) => destruct x
      end ].

Ltac keeps_tac := repeat keeps_step.

Section KeepsScript.

Context {X : Type} (f : World -> X) `{!Passive f}.

Lemma keeps_run_cmd (args : Args.t) (cmd : string) (cwd : Repo) (live : bool) :
  keeps f (run_cmd args cmd cwd live).
Proof. unfold run_cmd. keeps_tac. Qed.

Lemma keeps_cleanup : keeps f cleanup.
Proof. unfold cleanup. keeps_tac. Qed.

Hint Resolve keeps_run_cmd keeps_cleanup : keeps.

Lemma keeps_clone_repo (url : string) (target : Repo) : keeps f (clone_repo url target).
Proof. unfold clone_repo. keeps_tac. Qed.

Lemma keeps_list_branches (args : Args.t) (repo : Repo) : keeps f (list_branches args repo).
Proof. unfold list_branches. keeps_tac. Qed.

Lemma keeps_get_head_branch (args : Args.t) (repo : Repo) : keeps f (get_head_branch args repo).
Proof. unfold get_head_branch, head_branch_of. keeps_tac. Qed.

Lemma keeps_get_commit_dates_from (args : Args.t) (results : gmap string string)
    (repo : Repo) (branches : list string) :
  keeps f (get_commit_dates_from args results repo branches).
Proof.
  revert results. induction branches as [|b rest IH]; intros results; simpl; keeps_tac.
Qed.

Lemma keeps_get_commit_dates (args : Args.t) (repo : Repo) (branches : list string) :
  keeps f (get_commit_dates args repo branches).
Proof. apply keeps_get_commit_dates_from. Qed.

Lemma keeps_table_rows (dates : gmap string string) (branches : list string) :
  keeps f (table_rows dates branches).
Proof. induction branches as [|b rest IH]; simpl; keeps_tac. Qed.

End KeepsScript.

#[local] Hint Resolve keeps_run_cmd keeps_cleanup keeps_clone_repo keeps_list_branches
  keeps_get_head_branch keeps_get_commit_dates keeps_table_rows : keeps.

Lemma keeps_SUCCESS_choose_branch (args : Args.t) (repo : Repo) :
  keeps SUCCESS (choose_branch args repo).
Proof. unfold choose_branch, item0. keeps_tac. Qed.

Lemma keeps_SUCCESS_perform_merge (args : Args.t) (base_branch subdir : string)
    (conflict_strategy : option string) :
  keeps SUCCESS (perform_merge args base_branch subdir conflict_strategy).
Proof.
  unfold perform_merge, merge_attempt, on_conflict, open_dir. keeps_tac.
Qed.

#[local] Hint Resolve keeps_SUCCESS_choose_branch keeps_SUCCESS_perform_merge : keeps.

(** ** Cleanup *)











(** ** The process runner *)

Lemma run_cmd_missing_cwd (args : Args.t) (cmd : string) (cwd : Repo) (live : bool) (w : World) :
  area_at (disk w) cwd = None ->
  run_cmd args cmd cwd live w = (Raise (OSError (missing_dir_error w cwd)), w).
Proof.
  intros H. unfold run_cmd, bind, subprocess_run. rewrite H. reflexivity.
Qed.

Lemma run_cmd_eq (args : Args.t) (cmd : string) (cwd : Repo) (live : bool) (w : World) :
  is_Some (area_at (disk w) cwd) ->
  run_cmd args cmd cwd live w
  = (run_outcome cmd live (answer_to cmd cwd live w), run_world args cmd cwd live w).
Proof.
  intros [t Ht].
  unfold run_cmd, run_outcome, run_world, run_prints, answer_to, bind at 1, subprocess_run.
  rewrite Ht.
  generalize (respond w (trace w) (disk w) (Run cmd cwd (negb live))). intros r.
  cbv [returncode stdout stderr].
  destruct (exit_code r =? 0)%Z, (Args.analytics args), (Args.debug args), live;
    cbv [bind when modify print emit with_trace with_disk with_ANALYTICS strip_of ret raise
         negb orb
         disk trace stdin ANALYTICS LOGFILE_HANDLE SUCCESS os_name which missing_dir_error respond];
    rewrite <- ?app_assoc; reflexivity.
Qed.


Lemma asked_app (t1 t2 : list Event) : asked (t1 ++ t2) = (asked t1 ++ asked t2)%list.
Proof.
  induction t1 as [|e t1 IH]; [reflexivity|].
  destruct e; simpl; rewrite ?IH; reflexivity.
Qed.




(** ** Per-branch commit dates *)

Lemma run_cmd_raises_Exception (args : Args.t) (cmd : string) (cwd : Repo) (live : bool)
    (w w' : World) (e : exn) :
  run_cmd args cmd cwd live w = (Raise e, w') -> is_Exception e = true.
Proof.
  destruct (area_at (disk w) cwd) as [t|] eqn:Ht.
  - rewrite run_cmd_eq by eauto. unfold run_outcome.
    destruct (exit_code _ =? 0)%Z, live; intros [= <- _]; reflexivity.
  - rewrite run_cmd_missing_cwd by assumption. intros [= <- _]. reflexivity.
Qed.

(** One round of the loop: the lookup, and the entry it leaves. *)
Lemma date_lookup_step (args : Args.t) (results : gmap string string) (repo : Repo)
    (b : string) (w : World) :
  try_except
    (date <- run_cmd args (date_cmd b) repo false;; ret (<[b := date]> results))
    (fun _ => ret (<[b := "N/A"]> results)) w
  = (Ok (<[b := recorded (fst (run_cmd args (date_cmd b) repo false w))]> results),
     snd (run_cmd args (date_cmd b) repo false w)).
Proof.
  unfold try_except, bind.
  destruct (run_cmd args (date_cmd b) repo false w) as [[date|e] w'] eqn:Hrun; [reflexivity|].
  rewrite (run_cmd_raises_Exception _ _ _ _ _ _ _ Hrun). reflexivity.
Qed.

Lemma get_commit_dates_from_cons (args : Args.t) (results : gmap string string) (repo : Repo)
    (b : string) (rest : list string) (w : World) :
  get_commit_dates_from args results repo (b :: rest) w
  = get_commit_dates_from args
      (<[b := recorded (fst (run_cmd args (date_cmd b) repo false w))]> results) repo rest
      (snd (run_cmd args (date_cmd b) repo false w)).
Proof.
  cbn [get_commit_dates_from]. unfold bind at 1.
  rewrite date_lookup_step. reflexivity.
Qed.

(** The loop never raises, and the world it leaves does not depend on
    the entries collected so far. *)
Lemma get_commit_dates_from_total (args : Args.t) (repo : Repo) (branches : list string) :
  forall (results : gmap string string) (w : World),
    exists dates,
      get_commit_dates_from args results repo branches w
      = (Ok dates, snd (get_commit_dates args repo branches w)).
Proof.
  unfold get_commit_dates.
  induction branches as [|b rest IH]; intros results w.
  - exists results. reflexivity.
  - rewrite !get_commit_dates_from_cons.
    destruct (IH (<[b := recorded (fst (run_cmd args (date_cmd b) repo false w))]> results)
                 (snd (run_cmd args (date_cmd b) repo false w))) as [dates Hd].
    destruct (IH (<[b := recorded (fst (run_cmd args (date_cmd b) repo false w))]> ∅)
                 (snd (run_cmd args (date_cmd b) repo false w))) as [dates0 Hd0].
    exists dates. rewrite Hd, Hd0. reflexivity.
Qed.

(** Entries: those already there and one per branch looked up. *)
Lemma get_commit_dates_from_entries (args : Args.t) (repo : Repo) (branches : list string) :
  forall (results dates : gmap string string) (w w' : World),
    get_commit_dates_from args results repo branches w = (Ok dates, w') ->
    forall b, is_Some (dates !! b) <-> b ∈ branches \/ is_Some (results !! b).
Proof.
  induction branches as [|x rest IH]; intros results dates w w' Hrun b.
  - injection Hrun as <- _. rewrite elem_of_nil. tauto.
  - rewrite get_commit_dates_from_cons in Hrun.
    rewrite (IH _ _ _ _ Hrun b), elem_of_cons.
    destruct (decide (x = b)) as [->|Hne].
    + rewrite lookup_insert_eq. split; [auto|]. intros _. right. eauto.
    + rewrite lookup_insert_ne by assumption. split; [tauto|].
      intros [[Heq|Hin]|Hsome]; [congruence | auto | auto].
Qed.

(** A branch that is not looked up keeps the entry it had. *)
Lemma get_commit_dates_from_other (args : Args.t) (repo : Repo) (branches : list string) :
  forall (results dates : gmap string string) (w w' : World) (b : string),
    get_commit_dates_from args results repo branches w = (Ok dates, w') ->
    b ∉ branches -> dates !! b = results !! b.
Proof.
  induction branches as [|x rest IH]; intros results dates w w' b Hrun Hnotin.
  - injection Hrun as <- _. reflexivity.
  - rewrite get_commit_dates_from_cons in Hrun.
    apply not_elem_of_cons in Hnotin as [Hne Hnotin].
    rewrite (IH _ _ _ _ _ Hrun Hnotin). apply lookup_insert_ne. congruence.
Qed.

(** The loop over [pre ++ post] is the loop over [pre] followed by the
    loop over [post]. *)
Lemma get_commit_dates_from_app (args : Args.t) (repo : Repo) (pre post : list string) :
  forall (results : gmap string string) (w : World),
    exists mid,
      get_commit_dates_from args results repo pre w
      = (Ok mid, snd (get_commit_dates args repo pre w))
      /\ get_commit_dates_from args results repo (pre ++ post) w
         = get_commit_dates_from args mid repo post (snd (get_commit_dates args repo pre w)).
Proof.
  unfold get_commit_dates.
  induction pre as [|x pre IH]; intros results w.
  - exists results. split; reflexivity.
  - cbn [app]. rewrite !get_commit_dates_from_cons.
    destruct (IH (<[x := recorded (fst (run_cmd args (date_cmd x) repo false w))]> results)
                 (snd (run_cmd args (date_cmd x) repo false w))) as [mid [H1 H2]].
    destruct (get_commit_dates_from_total args repo pre
                (<[x := recorded (fst (run_cmd args (date_cmd x) repo false w))]> ∅)
                (snd (run_cmd args (date_cmd x) repo false w))) as [d0 Hd0].
    unfold get_commit_dates in Hd0.
    exists mid. rewrite Hd0. cbn [snd]. split; assumption.
Qed.

(** The lookup returns, with an entry for every branch asked for. *)
Lemma get_commit_dates_covers (args : Args.t) (repo : Repo) (branches : list string) (w : World) :
  exists dates,
    get_commit_dates args repo branches w
    = (Ok dates, snd (get_commit_dates args repo branches w))
    /\ forall b, b ∈ branches -> is_Some (dates !! b).
Proof.
  destruct (get_commit_dates_from_total args repo branches ∅ w) as [dates Hrun].
  fold (get_commit_dates args repo branches w) in Hrun.
  exists dates. split; [exact Hrun|].
  intros b Hb. apply (get_commit_dates_from_entries _ _ _ _ _ _ _ Hrun b). now left.
Qed.

(** C7. The date lookup returns a mapping for every list of branches:
    it never raises, it has an entry exactly for the requested
    branches, and the entry of a branch is what its own lookup gave,
    "N/A" when that lookup failed, whatever happened to the lookups of
    the other branches. *)
Theorem get_commit_dates_isolates_failures (args : Args.t) (repo : Repo)
    (branches : list string) (w : World) :
  exists dates w',
    get_commit_dates args repo branches w = (Ok dates, w')
    /\ (forall b, b ∈ branches <-> is_Some (dates !! b))
    /\ (forall pre b post,
          branches = (pre ++ b :: post)%list -> b ∉ post ->
          dates !! b
          = Some (recorded (fst (run_cmd args (date_cmd b) repo false
                                   (snd (get_commit_dates args repo pre w)))))).
Proof.
  destruct (get_commit_dates_from_total args repo branches ∅ w) as [dates Hrun].
  fold (get_commit_dates args repo branches w) in Hrun.
  exists dates, (snd (get_commit_dates args repo branches w)).
  split; [exact Hrun|]. split.
  - intros b. rewrite (get_commit_dates_from_entries _ _ _ _ _ _ _ Hrun b).
    rewrite lookup_empty. split; [auto|]. intros [H|[? [=]]]. exact H.
  - intros pre b post -> Hnotin.
    destruct (get_commit_dates_from_app args repo pre (b :: post) ∅ w) as [mid [_ Happ]].
    unfold get_commit_dates in Hrun. rewrite Happ in Hrun.
    rewrite get_commit_dates_from_cons in Hrun.
    rewrite (get_commit_dates_from_other _ _ _ _ _ _ _ _ Hrun Hnotin).
    apply lookup_insert_eq.
Qed.

(** ** Default branch and branch selection *)

Lemma head_branch_of_pure (output : string) (w : World) :
  snd (head_branch_of output w) = w
  /\ forall e, fst (head_branch_of output w) = Raise e -> is_Exception e = true.
Proof.
  unfold head_branch_of.
  destruct (PyStr.splitlines output) as [|line rest]; [split; [reflexivity | discriminate]|].
  destruct (PyStr.contains "HEAD branch:" line); [|split; [reflexivity | discriminate]].
  destruct (PyStr.second_field (PyStr.split ":" line)); cbn.
  - split; [reflexivity | discriminate].
  - split; [reflexivity | intros e [= <-]; reflexivity].
Qed.

Lemma get_head_branch_failed (args : Args.t) (repo : Repo) (w w1 : World) (e : exn) :
  run_cmd args "git remote show origin" repo false w = (Raise e, w1) ->
  get_head_branch args repo w = (Ok (Some "main"), w1).
Proof.
  intros Hrun. unfold get_head_branch, try_except, bind. rewrite Hrun.
  rewrite (run_cmd_raises_Exception _ _ _ _ _ _ _ Hrun). reflexivity.
Qed.

Lemma get_head_branch_answered (args : Args.t) (repo : Repo) (w w1 : World) (output : string) :
  run_cmd args "git remote show origin" repo false w = (Ok output, w1) ->
  get_head_branch args repo w
  = (match fst (head_branch_of output w1) with
     | Ok head => Ok head
     | Raise _ => Ok (Some "main")
     end, w1).
Proof.
  intros Hrun. unfold get_head_branch, try_except, bind. rewrite Hrun.
  destruct (head_branch_of_pure output w1) as [Hw He].
  destruct (head_branch_of output w1) as [[head|e] w2]; cbn in *; subst w2; [reflexivity|].
  rewrite (He e eq_refl). reflexivity.
Qed.

Lemma get_head_branch_total (args : Args.t) (repo : Repo) (w : World) :
  exists head w', get_head_branch args repo w = (Ok head, w').
Proof.
  destruct (run_cmd args "git remote show origin" repo false w) as [[output|e] w1] eqn:Hrun.
  - rewrite (get_head_branch_answered _ _ _ _ _ Hrun).
    destruct (fst (head_branch_of output w1)); eauto.
  - rewrite (get_head_branch_failed _ _ _ _ _ Hrun). eauto.
Qed.

Lemma table_rows_total (dates : gmap string string) (branches : list string) (w : World) :
  (forall b, b ∈ branches -> is_Some (dates !! b)) ->
  exists rows, table_rows dates branches w = (Ok rows, w).
Proof.
  induction branches as [|b rest IH]; intros Hall; [exists []; reflexivity|].
  destruct (Hall b) as [date Hdate]; [left|].
  destruct IH as [rows Hrows]; [intros x Hx; apply Hall; now right|].
  exists ([b; date] :: rows). cbn [table_rows]. rewrite Hdate.
  unfold bind. rewrite Hrows. reflexivity.
Qed.

(** [choose_branch] once the listing and the default branch are known:
    the table is printed and the prompt is shown, unless the default
    choice cannot be computed. *)
Lemma choose_branch_eq (args : Args.t) (repo : Repo) (w w1 w2 : World)
    (branches : list string) (head : option string) :
  list_branches args repo w = (Ok branches, w1) ->
  get_head_branch args repo w1 = (Ok head, w2) ->
  exists rows,
    choose_branch args repo w
    = (default <- match head with
                  | Some name => if bool_decide (name ∈ branches) then ret name else item0 branches
                  | None => item0 branches
                  end;;
       Prompt_ask "Select branch to merge" (Some branches) (Some default))
        (emit (PrintedTable "Available Branches" rows)
              (snd (get_commit_dates args repo branches w2))).
Proof.
  intros Hlist Hhead.
  destruct (get_commit_dates_covers args repo branches w2) as [dates [Hd Hall]].
  destruct (table_rows_total dates branches (snd (get_commit_dates args repo branches w2)))
    as [rows Hrows]; [exact Hall|].
  exists rows. unfold choose_branch.
  unfold bind at 1. rewrite Hlist.
  unfold bind at 1. rewrite Hhead.
  unfold bind at 1. rewrite Hd.
  unfold bind at 1. rewrite Hrows.
  unfold bind at 1. reflexivity.
Qed.

Lemma prompt_loop_choice (prompt : string) (choices : list string) (default : string)
    (input rest : list string) (evs : list Event) (v : string) :
  prompt_loop prompt (Some choices) (Some default) input = (Ok v, rest, evs) ->
  v = default \/ v ∈ choices.
Proof.
  revert rest evs. induction input as [|line input IH]; intros rest evs; cbn.
  - discriminate.
  - destruct (String.eqb line ""); [intros [= <- _ _]; now left|].
    case_bool_decide as Hin.
    + intros [= <- _ _]. now right.
    + destruct (prompt_loop prompt (Some choices) (Some default) input) as [[r rest'] evs'].
      intros [= -> _ _]. eapply IH. reflexivity.
Qed.

(** C10. Branch selection needs a branch: on an empty listing
    [choose_branch] raises the [IndexError] of [branches[0]], and
    whenever it returns, the listing was not empty and the name
    returned is one of the listed branches. *)
Theorem choose_branch_needs_a_branch (args : Args.t) (repo : Repo) (w : World) :
  (forall w1, list_branches args repo w = (Ok [], w1) ->
     exists w', choose_branch args repo w = (Raise (IndexError "list index out of range"), w'))
  /\ (forall b w', choose_branch args repo w = (Ok b, w') ->
        exists branches w1,
          list_branches args repo w = (Ok branches, w1) /\ branches <> [] /\ b ∈ branches).
Proof.
  split.
  - intros w1 Hlist.
    destruct (get_head_branch_total args repo w1) as [head [w2 Hhead]].
    destruct (choose_branch_eq args repo w w1 w2 [] head Hlist Hhead) as [rows ->].
    eexists. unfold bind.
    destruct head as [name|]; [rewrite bool_decide_eq_false_2 by apply not_elem_of_nil|];
      reflexivity.
  - intros b w' Hchoose.
    destruct (list_branches args repo w) as [[branches|e] w1] eqn:Hlist.
    2:{ unfold choose_branch, bind in Hchoose. rewrite Hlist in Hchoose. discriminate. }
    destruct (get_head_branch_total args repo w1) as [head [w2 Hhead]].
    destruct (choose_branch_eq args repo w w1 w2 branches head Hlist Hhead) as [rows Heq].
    rewrite Heq in Hchoose. clear Heq.
    exists branches, w1. split; [reflexivity|].
    assert (Hdefault : forall d w0 (wr : World),
               d ∈ branches ->
               Prompt_ask "Select branch to merge" (Some branches) (Some d) w0 = (Ok b, wr) ->
               b ∈ branches).
    { intros d w0 wr Hd. unfold Prompt_ask.
      destruct (prompt_loop _ _ _ (stdin w0)) as [[r' rest] evs] eqn:Hloop.
      intros [= -> _]. apply prompt_loop_choice in Hloop as [->|Hin]; assumption. }
    destruct branches as [|first rest].
    + exfalso. unfold bind in Hchoose.
      destruct head as [name|];
        [rewrite bool_decide_eq_false_2 in Hchoose by apply not_elem_of_nil|];
        discriminate.
    + split; [discriminate|]. unfold bind in Hchoose.
      destruct head as [name|]; [case_bool_decide as Hin|]; cbn in Hchoose.
      * eapply Hdefault; [exact Hin | exact Hchoose].
      * eapply Hdefault; [left | exact Hchoose].
      * eapply Hdefault; [left | exact Hchoose].
Qed.

Lemma append_nil_l (s : string) : "" ++ s = s.
Proof. reflexivity. Qed.

Lemma append_cons (c : ascii) (a b : string) : String c a ++ b = String c (a ++ b).
Proof. reflexivity. Qed.

(** A line that contains a colon has a second field. *)
Lemma split_two_fields (sep : ascii) (s : string) :
  (exists pre post, s = pre ++ String sep post) ->
  exists name, PyStr.second_field (PyStr.split sep s) = Some name.
Proof.
  intros [pre [post ->]].
  induction pre as [|c pre IH];
    rewrite ?append_nil_l, ?append_cons; cbn [PyStr.split].
  - rewrite Ascii.eqb_refl. unfold PyStr.second_field.
    destruct (PyStr.split sep post) as [|f fs] eqn:E; [|cbn; eauto].
    destruct post as [|c post]; [discriminate|]. cbn [PyStr.split] in E.
    destruct (Ascii.eqb c sep); [discriminate|].
    destruct (PyStr.split sep post); discriminate.
  - destruct IH as [name Hname]. unfold PyStr.second_field in *.
    destruct (Ascii.eqb c sep).
    + destruct (PyStr.split sep (pre ++ String sep post)) as [|f1 fs]; [discriminate|].
      cbn. eauto.
    + destruct (PyStr.split sep (pre ++ String sep post)) as [|f1 [|f2 fs]]; try discriminate.
      cbn. eauto.
Qed.

Lemma startswith_app (p s : string) :
  PyStr.startswith p s = true -> exists post, s = p ++ post.
Proof.
  revert s. induction p as [|a p IH]; intros s; cbn [PyStr.startswith].
  - exists s. reflexivity.
  - destruct s as [|b s]; [discriminate|].
    intros [Hab Hps]%andb_prop. apply Ascii.eqb_eq in Hab as ->.
    destruct (IH s Hps) as [post ->]. exists post. reflexivity.
Qed.

Lemma app_startswith (p post : string) : PyStr.startswith p (p ++ post) = true.
Proof.
  induction p as [|a p IH]; rewrite ?append_nil_l, ?append_cons; cbn [PyStr.startswith];
    [reflexivity|].
  now rewrite Ascii.eqb_refl.
Qed.

(** [needle in hay] is the substring relation. *)
Lemma contains_substring (needle hay : string) :
  PyStr.contains needle hay = true <-> substring needle hay.
Proof.
  unfold substring. split.
  - induction hay as [|c hay IH]; cbn [PyStr.contains].
    + rewrite orb_false_r. intros [post ->]%startswith_app. exists "", post. reflexivity.
    + intros [[post ->]%startswith_app | Hrest]%orb_prop.
      * exists "", post. reflexivity.
      * destruct (IH Hrest) as [pre [post ->]]. exists (String c pre), post. reflexivity.
  - intros [pre [post ->]].
    induction pre as [|c pre IH]; rewrite ?append_nil_l, ?append_cons.
    + destruct (needle ++ post) eqn:E; cbn [PyStr.contains];
        rewrite <- E, app_startswith; reflexivity.
    + cbn [PyStr.contains]. rewrite IH. apply orb_true_r.
Qed.

Lemma string_app_assoc (a b c : string) : (a ++ b) ++ c = a ++ b ++ c.
Proof.
  induction a as [|x a IH]; rewrite ?append_nil_l, ?append_cons; [reflexivity | now rewrite IH].
Qed.

Lemma HEAD_branch_line_has_name (line : string) :
  PyStr.contains "HEAD branch:" line = true ->
  exists name, PyStr.second_field (PyStr.split ":" line) = Some name.
Proof.
  intros [pre [post ->]]%contains_substring.
  apply split_two_fields. exists (pre ++ "HEAD branch"), post.
  rewrite string_app_assoc. reflexivity.
Qed.

(** C6 as the query has it.  The query never raises.  When the remote
    query command fails it answers the fixed name "main" itself, not
    null.  When the command succeeds it answers null on empty output,
    and the trimmed text after the colon when the first line of the
    output carries "HEAD branch:".  The fallback to the first listed
    branch is the caller's: [choose_branch] offers it as the default
    choice whenever the answer of the query is not a listed branch. *)
Theorem default_branch_query (args : Args.t) (repo : Repo) (w : World) :
  (exists head w', get_head_branch args repo w = (Ok head, w'))
  /\ (forall e w1,
        run_cmd args "git remote show origin" repo false w = (Raise e, w1) ->
        get_head_branch args repo w = (Ok (Some "main"), w1))
  /\ (forall output w1,
        run_cmd args "git remote show origin" repo false w = (Ok output, w1) ->
        (PyStr.splitlines output = [] -> get_head_branch args repo w = (Ok None, w1))
        /\ (forall line rest,
              PyStr.splitlines output = line :: rest ->
              PyStr.contains "HEAD branch:" line = true ->
              exists name,
                PyStr.second_field (PyStr.split ":" line) = Some name
                /\ get_head_branch args repo w = (Ok (Some (PyStr.strip name)), w1)))
  /\ (forall first rest w1 head w2 input,
        list_branches args repo w = (Ok (first :: rest), w1) ->
        get_head_branch args repo w1 = (Ok head, w2) ->
        (forall name, head = Some name -> name ∉ first :: rest) ->
        stdin w = "" :: input ->
        exists w', choose_branch args repo w = (Ok first, w')).
Proof.
  split; [apply get_head_branch_total|].
  split; [intros e w1; apply get_head_branch_failed|].
  split.
  - intros output w1 Hrun. rewrite (get_head_branch_answered _ _ _ _ _ Hrun).
    unfold head_branch_of. split.
    + intros ->. reflexivity.
    + intros line rest -> Hmark. rewrite Hmark.
      destruct (HEAD_branch_line_has_name line Hmark) as [name Hname].
      exists name. rewrite Hname. split; reflexivity.
  - intros first rest w1 head w2 input Hlist Hhead Hnot Hin.
    destruct (choose_branch_eq args repo w w1 w2 (first :: rest) head Hlist Hhead) as [rows ->].
    set (w3 := emit _ _).
    assert (Hstdin : stdin w3 = "" :: input).
    { unfold w3. rewrite passive_emit by typeclasses eauto.
      rewrite (keeps_get_commit_dates stdin args repo (first :: rest) w2).
      pose proof (keeps_get_head_branch stdin args repo w1) as H2. rewrite Hhead in H2.
      pose proof (keeps_list_branches stdin args repo w) as H1. rewrite Hlist in H1.
      cbn in H1, H2. congruence. }
    assert (Hask : exists w', Prompt_ask "Select branch to merge" (Some (first :: rest))
                                         (Some first) w3 = (Ok first, w')).
    { unfold Prompt_ask. rewrite Hstdin. cbn. eauto. }
    destruct Hask as [w' Hask]. exists w'. unfold bind.
    destruct head as [name|]; [rewrite bool_decide_eq_false_2 by (apply Hnot; reflexivity)|];
      cbn; exact Hask.
Qed.

(** ** Branch listing *)

Lemma compare_Lt_trans (a b c : string) :
  String.compare a b = Lt -> String.compare b c = Lt -> String.compare a c = Lt.
Proof.
  revert b c. induction a as [|x a IH]; intros [|y b] [|z c]; simpl; try congruence.
  destruct (Ascii.compare x y) eqn:Hxy; try congruence;
    destruct (Ascii.compare y z) eqn:Hyz; try congruence.
  - apply Ascii.compare_eq_iff in Hxy, Hyz. subst.
    assert (Ascii.compare z z = Eq) as -> by apply N.compare_refl. eauto.
  - apply Ascii.compare_eq_iff in Hxy. subst. now rewrite Hyz.
  - apply Ascii.compare_eq_iff in Hyz. subst. now rewrite Hxy.
  - unfold Ascii.compare in *. rewrite N.compare_lt_iff in *.
    assert (N_of_ascii x < N_of_ascii z)%N as H by lia.
    apply N.compare_lt_iff in H. now rewrite H.
Qed.

#[local] Instance str_le_total : Total PyStr.str_le.
Proof. intros a b. apply String.leb_total. Qed.

#[local] Instance str_le_transitive : Transitive PyStr.str_le.
Proof.
  intros a b c. unfold PyStr.str_le, String.leb. intros Hab Hbc.
  destruct (String.compare a b) eqn:E1; try discriminate;
    destruct (String.compare b c) eqn:E2; try discriminate.
  - apply String.compare_eq_iff in E1. subst. now rewrite E2.
  - apply String.compare_eq_iff in E1. subst. now rewrite E2.
  - apply String.compare_eq_iff in E2. subst. now rewrite E1.
  - now rewrite (compare_Lt_trans a b c).
Qed.


Lemma elem_of_sorted_set (x : string) (xs : list string) : x ∈ PyStr.sorted_set xs <-> x ∈ xs.
Proof.
  unfold PyStr.sorted_set. rewrite merge_sort_Permutation.
  rewrite elem_of_elements. apply elem_of_list_to_set.
Qed.



Lemma substring_trans (a b c : string) : substring a b -> substring b c -> substring a c.
Proof.
  intros [p1 [q1 ->]] [p2 [q2 ->]]. exists (p2 ++ p1), (q1 ++ q2).
  now rewrite !string_app_assoc.
Qed.

Lemma lstrip_suffix (s : string) : exists pre, s = pre ++ PyStr.lstrip s.
Proof.
  induction s as [|c s [pre IH]]; [exists ""; reflexivity|].
  cbn [PyStr.lstrip]. destruct (PyStr.is_space c).
  - exists (String c pre). rewrite append_cons. now rewrite <- IH.
  - exists "". reflexivity.
Qed.

Lemma rstrip_prefix (s : string) : exists post, s = PyStr.rstrip s ++ post.
Proof.
  induction s as [|c s [post IH]]; [exists ""; reflexivity|].
  cbn [PyStr.rstrip]. destruct (PyStr.rstrip s) as [|k kept].
  - rewrite append_nil_l in IH. subst post.
    destruct (PyStr.is_space c); [exists (String c s) | exists s]; reflexivity.
  - exists post. rewrite append_cons. now rewrite <- IH.
Qed.

Lemma strip_substring (s : string) : substring (PyStr.strip s) s.
Proof.
  unfold PyStr.strip. destruct (lstrip_suffix s) as [pre Hpre].
  destruct (rstrip_prefix (PyStr.lstrip s)) as [post Hpost].
  exists pre, post. now rewrite <- Hpost.
Qed.

Lemma split_not_nil (sep : ascii) (s : string) : PyStr.split sep s <> [].
Proof.
  destruct s as [|c s]; cbn [PyStr.split]; [discriminate|].
  destruct (Ascii.eqb c sep); [discriminate|].
  destruct (PyStr.split sep s); discriminate.
Qed.

(** The last field of a split is the end of the string (and the whole
    string when there is one field only). *)
Lemma last_field_suffix (sep : ascii) (s : string) :
  exists pre, s = pre ++ PyStr.last_field (PyStr.split sep s)
              /\ (forall f, PyStr.split sep s = [f] -> pre = "").
Proof.
  unfold PyStr.last_field.
  induction s as [|c s [pre [IH Hone]]]; [exists ""; split; [reflexivity | auto]|].
  cbn [PyStr.split]. destruct (Ascii.eqb c sep).
  - exists (String c pre). split.
    + destruct (PyStr.split sep s) as [|f fs] eqn:E; [now apply split_not_nil in E|].
      change (List.last ("" :: f :: fs) "") with (List.last (f :: fs) "").
      rewrite append_cons. now rewrite <- IH.
    + intros f [= _ E]. now apply split_not_nil in E.
  - destruct (PyStr.split sep s) as [|f [|f2 fs]] eqn:E; [now apply split_not_nil in E| |].
    + rewrite (Hone f eq_refl), append_nil_l in IH. cbn in IH. subst f.
      exists "". split; [reflexivity | auto].
    + exists (String c pre). split; [|discriminate].
      change (List.last (String c f :: f2 :: fs) "") with (List.last (f :: f2 :: fs) "").
      rewrite append_cons. now rewrite <- IH.
Qed.

Lemma last_field_substring (sep : ascii) (s : string) :
  substring (PyStr.last_field (PyStr.split sep s)) s.
Proof.
  destruct (last_field_suffix sep s) as [pre [H _]].
  exists pre, "". rewrite H at 1. f_equal. clear H.
  induction (PyStr.last_field _) as [|c t IH]; [reflexivity|].
  rewrite append_cons. now rewrite <- IH.
Qed.


Lemma elem_of_branches_of (raw b : string) :
  b ∈ branches_of raw <->
  exists line, line ∈ PyStr.splitlines raw
               /\ PyStr.contains "->" line = false
               /\ PyStr.contains "HEAD" line = false
               /\ b = PyStr.last_field (PyStr.split "/" (PyStr.strip line)).
Proof.
  unfold branches_of. rewrite elem_of_sorted_set, list_elem_of_In, in_map_iff.
  split.
  - intros [line [<- [Hin Hkeep]%filter_In]].
    apply andb_prop in Hkeep as [H1 H2]. apply negb_true_iff in H1, H2.
    exists line. rewrite list_elem_of_In. auto.
  - intros [line [Hin [H1 [H2 ->]]]]. exists line. split; [reflexivity|].
    apply filter_In. rewrite <- list_elem_of_In. split; [assumption|].
    rewrite H1, H2. reflexivity.
Qed.


(** ** The merge attempt *)

(** A streamed command that was started fails in one way only, and
    that failure does not mention the histories. *)
Lemma run_cmd_live_failure (args : Args.t) (cmd : string) (cwd : Repo) (w w' : World) (e : exn) :
  is_Some (area_at (disk w) cwd) ->
  run_cmd args cmd cwd true w = (Raise e, w') ->
  e = AttributeError "'NoneType' object has no attribute 'strip'".
Proof.
  intros Hcwd. rewrite run_cmd_eq by assumption. unfold run_outcome.
  destruct (exit_code _ =? 0)%Z; intros [= <- _]. reflexivity.
Qed.

(** Whatever git said when the merge attempt failed, the handler takes
    the failure for a content conflict: the test for "unrelated
    histories" reads the text of the exception, which is never git's. *)
Lemma merge_failure_taken_for_conflict (args : Args.t) (subdir flag : string) (w w1 : World)
    (e : exn) :
  is_Some (area_at (disk w) BASE_REPO_DIR) ->
  run_cmd args (base_merge_cmd flag) BASE_REPO_DIR true w = (Raise e, w1) ->
  merge_attempt args subdir flag w = on_conflict args subdir w1.
Proof.
  intros Hbase Hrun. unfold merge_attempt, try_except, bind at 1. rewrite Hrun.
  rewrite (run_cmd_live_failure _ _ _ _ _ _ Hbase Hrun). reflexivity.
Qed.

Lemma merge_success (args : Args.t) (subdir flag : string) (w w1 : World) (text : string) :
  run_cmd args (base_merge_cmd flag) BASE_REPO_DIR true w = (Ok text, w1) ->
  merge_attempt args subdir flag w = (Ok tt, w1).
Proof.
  intros Hrun. unfold merge_attempt, try_except, bind at 1. rewrite Hrun. reflexivity.
Qed.



(** ** The session *)







(** ** Concrete runs *)

Import Fixture.


(** A failure that nothing catches: the fetch exits with 1, the session
    fails with the runner's exception and both working areas are gone,
    read-only pack files included. *)
Example fetch_failure_cleans_up :
  let '(r, w') := session args_y (world empty_disk (("git fetch merge_repo", fails 1 "fatal: no route")
                                                      :: probe_answers) [""; ""; ""]) in
  r = Raise (Exception "Command failed: git fetch merge_repo")
  /\ disk w' = empty_disk
  /\ exit_status r = 1%Z.
Proof. vm_compute. repeat split. Qed.

(** A failing relocation ends the run through [exit(1)], after the
    same cleanup. *)
Example relocation_failure_exits :
  let '(r, w') := session args_y
                    (world empty_disk
                       (("git-filter-repo --to-subdirectory-filter merged_content --force",
                         fails 1 "Aborting: Refusing to overwrite repo history")
                          :: probe_answers) [""; ""; ""]) in
  r = Raise (SystemExit 1) /\ disk w' = empty_disk.
Proof. vm_compute. repeat split. Qed.

(** The exit status of a clone is returned and dropped: with
    [--retry] and the working areas of an earlier run, a clone that
    fails on the existing directory does not fail the session. *)
Example clone_failure_is_ignored :
  let answers := ("git clone https://example.org/base.git",
                  fails 128 "fatal: destination path already exists") :: probe_answers in
  let '(r, w') := session args_retry (world cloned_disk answers [""; ""; ""]) in
  r = Ok tt
  /\ In (Spawned (GitClone "https://example.org/base.git" BASE_REPO_DIR) 128) (trace w')
  /\ disk w' = cloned_disk.
Proof. vm_compute. repeat split; auto. Qed.


(** C3, the code at the failing input.  git refuses the merge with
    "refusing to merge unrelated histories" and exit status 128; the
    merge command is started once, never again, and with [-y] the
    orchestration returns as if a content conflict had been left
    pending. *)
Theorem unrelated_histories_failure_is_not_retried :
  let answers := [("git merge merge_repo/HEAD --allow-unrelated-histories",
                   fails 128 "fatal: refusing to merge unrelated histories")] in
  let '(r, w') := perform_merge args_y "main" "merged_content" None
                                (world cloned_disk answers []) in
  r = Ok tt
  /\ spawns (trace w')
     = [Run "git checkout main" BASE_REPO_DIR true;
        Run "git remote add merge_repo ../merge_repo" BASE_REPO_DIR true;
        Run "git fetch merge_repo" BASE_REPO_DIR true;
        Run "git merge merge_repo/HEAD --allow-unrelated-histories" BASE_REPO_DIR false].
Proof. vm_compute. split; reflexivity. Qed.


(** A streamed command that fails does not even raise the runner's
    own exception: [result.stderr] is [None] there. *)
Example streamed_failure_raises_AttributeError :
  fst (run_cmd no_flags "git diff --stat" BASE_REPO_DIR true
               (world cloned_disk [("git diff --stat", fails 1 "fatal: bad object")] []))
  = Raise (AttributeError "'NoneType' object has no attribute 'strip'").
Proof. reflexivity. Qed.

(** C6, counterexample to the claim as stated.  When the remote query
    fails, the default branch cannot be determined; the query answers
    the fixed name "main", not null. *)
Lemma failed_query_answers_main :
  let w := world cloned_disk [("git remote show origin", fails 128 "fatal: unable to access remote")] [] in
  fst (get_head_branch no_flags MERGE_REPO_DIR w) = Ok (Some "main")
  /\ fst (get_head_branch no_flags MERGE_REPO_DIR w) <> Ok None.
Proof. vm_compute. split; [reflexivity | discriminate]. Qed.

(** What git really prints has the default branch on a later line; the
    loop returns at the first line and the query answers null. *)
Example advertised_branch_on_a_later_line :
  fst (get_head_branch no_flags MERGE_REPO_DIR
         (world cloned_disk [("git remote show origin", says remote_show)] []))
  = Ok None.
Proof. reflexivity. Qed.

Example advertised_branch_on_the_first_line :
  fst (get_head_branch no_flags MERGE_REPO_DIR
         (world cloned_disk [("git remote show origin", says (text ["  HEAD branch: trunk"]))] []))
  = Ok (Some "trunk").
Proof. reflexivity. Qed.

(** C9, the code at the failing input.  With [-y], both URLs given and
    three lines typed, the session shows three prompts and obeys what
    was typed (branch dev, base branch release, a push) instead of
    taking the defaults; with nothing to read, it stops at the first
    of them. *)
Theorem y_flag_still_prompts :
  (let '(r, w') := session args_y (world empty_disk probe_answers ["dev"; "release"; "yes"]) in
   r = Ok tt
   /\ asked (trace w')
      = ["Select branch to merge"; "Target branch to merge into"; "Push to origin?"]
   /\ stdin w' = []
   /\ In (Run "git checkout dev" MERGE_REPO_DIR true) (spawns (trace w'))
   /\ In (Run "git checkout release" BASE_REPO_DIR true) (spawns (trace w'))
   /\ In (Run "git push origin HEAD" BASE_REPO_DIR true) (spawns (trace w')))
  /\ (let '(r, w') := session args_y (world empty_disk probe_answers []) in
      r = Raise EOFError /\ asked (trace w') = ["Select branch to merge"]).
Proof. vm_compute. repeat split; auto 20. Qed.

(** What [-y] does skip: the subdirectory prompt and the pause on a
    conflict. *)
Example y_flag_skips_two_prompts :
  let answers := ("git merge merge_repo/HEAD --allow-unrelated-histories",
                  fails 1 "CONFLICT (add/add)") :: probe_answers in
  let '(r, w') := session args_y (world empty_disk answers [""; ""; ""]) in
  r = Ok tt
  /\ asked (trace w')
     = ["Select branch to merge"; "Target branch to merge into"; "Push to origin?"]
  /\ In (Run "git-filter-repo --to-subdirectory-filter merged_content --force" MERGE_REPO_DIR true)
        (spawns (trace w')).
Proof. vm_compute. repeat split; auto 20. Qed.

(** ** The statements at work on the scripted environment *)




(** C6 on a remote whose first output line is not the default-branch
    line: the query answers null and [choose_branch] falls back to the
    first listed branch. *)
Lemma default_branch_query_witness :
  exists w',
    choose_branch no_flags MERGE_REPO_DIR (world cloned_disk probe_answers [""])
    = (Ok "dev", w').
Proof.
  destruct (default_branch_query no_flags MERGE_REPO_DIR (world cloned_disk probe_answers [""]))
    as [_ [_ [_ Hfallback]]].
  eapply (Hfallback "dev" ["main"] _ None _ []).
  - vm_compute. reflexivity.
  - vm_compute. reflexivity.
  - discriminate.
  - reflexivity.
Defined.

(** C7 on two branches: the lookup for dev fails, the one for main
    answers. *)
Lemma get_commit_dates_witness :
  exists dates w',
    get_commit_dates no_flags MERGE_REPO_DIR ["dev"; "main"] (world cloned_disk probe_answers [])
    = (Ok dates, w')
    /\ dates !! "dev" = Some "N/A"
    /\ dates !! "main" = Some "2024-05-01 10:00:00 +0000".
Proof.
  destruct (get_commit_dates_isolates_failures no_flags MERGE_REPO_DIR ["dev"; "main"]
              (world cloned_disk probe_answers [])) as [dates [w' [Hrun [_ Hvalue]]]].
  exists dates, w'. split; [exact Hrun|]. split.
  - rewrite (Hvalue [] "dev" ["main"] eq_refl); [reflexivity|].
    intros [H|H]%elem_of_cons; [discriminate H | now apply elem_of_nil in H].
  - rewrite (Hvalue ["dev"] "main" [] eq_refl); [reflexivity | apply not_elem_of_nil].
Defined.

(** C10 on a remote without branches. *)
Lemma choose_branch_needs_a_branch_witness :
  exists w',
    choose_branch no_flags MERGE_REPO_DIR (world cloned_disk [] ["main"])
    = (Raise (IndexError "list index out of range"), w').
Proof.
  destruct (choose_branch_needs_a_branch no_flags MERGE_REPO_DIR (world cloned_disk [] ["main"]))
    as [Hempty _].
  eapply Hempty. vm_compute. reflexivity.
Defined.

(** C8 on two fresh clones: the read-only pack files go too, and a
    second cleanup finds nothing to do. *)
Example cleanup_removes_clones :
  let w := world cloned_disk [] [] in
  disk (snd (cleanup w)) = empty_disk
  /\ trace (snd (cleanup w)) = [Removed BASE_REPO_DIR; Removed MERGE_REPO_DIR]
  /\ cleanup (snd (cleanup w)) = (Ok tt, snd (cleanup w)).
Proof. vm_compute. repeat split. Qed.

(** * Further properties of the script *)

(** ** Processes started and the dialogue with the operator *)

Lemma started_app (t1 t2 : list Event) : started (t1 ++ t2) = (started t1 ++ started t2)%list.
Proof.
  induction t1 as [|e t1 IH]; [reflexivity|].
  destruct e; simpl; rewrite ?IH; reflexivity.
Qed.

Lemma started_run_prints (args : Args.t) (cmd : string) (live : bool) (r : Response) :
  started (run_prints args cmd live r) = [].
Proof.
  unfold run_prints.
  destruct (Args.debug args), ((exit_code r =? 0)%Z || live); reflexivity.
Qed.

Lemma spawns_started (t : list Event) : spawns t = map fst (started t).
Proof.
  induction t as [|e t IH]; [reflexivity|].
  destruct e; simpl; rewrite ?IH; reflexivity.
Qed.

Lemma starts_ret {A} (a : A) : starts (ret a) (fun r l => r = Ok a /\ l = []).
Proof. intros w. exists []. cbn. rewrite app_nil_r. auto. Qed.

Lemma starts_weaken {A} (m : M A) (P Q : result A -> list (Invocation * Z) -> Prop) :
  starts m P -> (forall r l, P r l -> Q r l) -> starts m Q.
Proof. intros Hm HPQ w. destruct (Hm w) as [l [Hl HP]]. eauto. Qed.

(** Sequencing: what the first part started, then, if it returned,
    what the rest started. *)
Lemma starts_bind {A B} (m : M A) (k : A -> M B)
    (P : result A -> list (Invocation * Z) -> Prop)
    (Q : A -> result B -> list (Invocation * Z) -> Prop) :
  starts m P -> (forall a, starts (k a) (Q a)) ->
  starts (bind m k)
         (fun r l =>
            (exists e, r = Raise e /\ P (Raise e) l)
            \/ (exists a l1 l2, l = (l1 ++ l2)%list /\ P (Ok a) l1 /\ Q a r l2)).
Proof.
  intros Hm Hk w. unfold bind. destruct (Hm w) as [l1 [Hl1 HP]].
  destruct (m w) as [[a|e] w1]; cbn in *.
  - destruct (Hk a w1) as [l2 [Hl2 HQ]].
    exists (l1 ++ l2)%list. split; [rewrite Hl2, Hl1, app_assoc; reflexivity|].
    right. exists a, l1, l2. auto.
  - exists l1. split; [exact Hl1|]. left. eauto.
Qed.

(** One call of the runner starts at most its own process, and returns
    exactly when that process exits zero. *)
Lemma run_cmd_starts (args : Args.t) (cmd : string) (cwd : Repo) (live : bool) :
  starts (run_cmd args cmd cwd live) (one_process (Run cmd cwd (negb live))).
Proof.
  intros w. destruct (area_at (disk w) cwd) as [t|] eqn:Ht.
  - rewrite run_cmd_eq by eauto. cbn [fst snd].
    exists [(Run cmd cwd (negb live), exit_code (answer_to cmd cwd live w))].
    split.
    + unfold run_world. cbn [trace]. rewrite started_app. cbn [started].
      rewrite started_run_prints. reflexivity.
    + unfold one_process, run_outcome.
      destruct (Z.eqb_spec (exit_code (answer_to cmd cwd live w)) 0) as [Hz|Hnz].
      * right. right. rewrite Hz. auto.
      * right. left. exists (exit_code (answer_to cmd cwd live w)).
        destruct live; auto.
  - rewrite run_cmd_missing_cwd by assumption. exists []. cbn.
    rewrite app_nil_r. split; [reflexivity|]. left. auto.
Qed.

(** The runner, the probes and the cleanup hold no dialogue. *)
Lemma dialogue_emit (e : Event) (w : World) :
  (forall prompt, e <> Asked prompt) -> dialogue (emit e w) = dialogue w.
Proof.
  intros He. unfold dialogue, emit, with_trace. cbn [trace stdin].
  rewrite asked_app. destruct e; cbn; rewrite ?app_nil_r; try reflexivity.
  now destruct (He prompt).
Qed.

Lemma keeps_dialogue_print (msg : string) : keeps dialogue (print msg).
Proof. intros w. now apply dialogue_emit. Qed.

Lemma keeps_dialogue_subprocess_run (cmd : string) (cwd : Repo) (capture : bool) :
  keeps dialogue (subprocess_run cmd cwd capture).
Proof.
  intros w. unfold subprocess_run. destruct (area_at (disk w) cwd); [|reflexivity].
  cbn [snd]. now rewrite dialogue_emit.
Qed.

Lemma keeps_dialogue_ANALYTICS (g : World -> list ExecutionRecord) :
  keeps dialogue (modify (fun w => with_ANALYTICS (g w) w)).
Proof. intros w. reflexivity. Qed.

Lemma keeps_dialogue_strip_of (x : option string) : keeps dialogue (strip_of x).
Proof. destruct x; [apply keeps_ret | apply keeps_raise]. Qed.

#[local] Hint Resolve keeps_dialogue_print keeps_dialogue_subprocess_run
  keeps_dialogue_ANALYTICS keeps_dialogue_strip_of : keeps.

Lemma keeps_dialogue_run_cmd (args : Args.t) (cmd : string) (cwd : Repo) (live : bool) :
  keeps dialogue (run_cmd args cmd cwd live).
Proof. unfold run_cmd. keeps_tac. Qed.

#[local] Hint Resolve keeps_dialogue_run_cmd : keeps.

(** ** The merge phase *)

(** A failure met while walking through the cases of a footprint. *)
Ltac footprint :=
  repeat match goal with
         | H : _ \/ _ |- _ => destruct H
         | H : exists _, _ |- _ => destruct H
         | H : _ /\ _ |- _ => destruct H
         | H : Raise _ = Ok _ |- _ => discriminate H
         | H : Ok _ = Raise _ |- _ => discriminate H
         | H : raised (Ok _) = true |- _ => discriminate H
         | H : raised (Raise _) = false |- _ => discriminate H
         | H : Ok _ = Ok _ |- _ => injection H as H
         | H : Raise _ = Raise _ |- _ => injection H as H
         end;
  subst.

Lemma spawns_extended (t t' : list Event) (l : list (Invocation * Z)) :
  started t' = (started t ++ l)%list -> spawns t' = (spawns t ++ map fst l)%list.
Proof. intros H. rewrite !spawns_started, H, map_app. reflexivity. Qed.

(** X8. Preview mode runs the three set-up commands and the two listings,
    stopping at the first that fails, and nothing else: no merge
    command is started and the operator is asked nothing. *)
Theorem preview_never_merges (args : Args.t) (base_branch subdir : string)
    (conflict_strategy : option string) (w : World) :
  Args.merge_preview args = true ->
  let w' := snd (perform_merge args base_branch subdir conflict_strategy w) in
  (exists l,
      spawns (trace w') = (spawns (trace w) ++ l)%list
      /\ l `prefix_of` [Run ("git checkout " ++ base_branch) BASE_REPO_DIR true;
                        Run "git remote add merge_repo ../merge_repo" BASE_REPO_DIR true;
                        Run "git fetch merge_repo" BASE_REPO_DIR true;
                        Run "git log --graph --oneline --all" BASE_REPO_DIR true;
                        Run "git ls-tree -r HEAD" BASE_REPO_DIR true])
  /\ asked (trace w') = asked (trace w)
  /\ stdin w' = stdin w.
Proof.
  intros Hpreview w'. split.
  - assert (H : starts (perform_merge args base_branch subdir conflict_strategy)
                  (fun _ l => map fst l `prefix_of`
                     [Run ("git checkout " ++ base_branch) BASE_REPO_DIR true;
                      Run "git remote add merge_repo ../merge_repo" BASE_REPO_DIR true;
                      Run "git fetch merge_repo" BASE_REPO_DIR true;
                      Run "git log --graph --oneline --all" BASE_REPO_DIR true;
                      Run "git ls-tree -r HEAD" BASE_REPO_DIR true])).
    { unfold perform_merge. rewrite Hpreview.
      eapply starts_weaken.
      - apply starts_bind; [apply run_cmd_starts | intros ?].
        apply starts_bind; [apply run_cmd_starts | intros ?].
        apply starts_bind; [apply run_cmd_starts | intros ?].
        apply starts_bind; [apply run_cmd_starts | intros ?].
        apply starts_bind; [apply run_cmd_starts | intros ?].
        apply starts_ret.
      - cbv beta. unfold one_process. intros r l H. footprint; cbn;
          solve [ eexists; reflexivity ]. }
    destruct (H w) as [l [Hl Hprefix]]. exists (map fst l).
    split; [apply spawns_extended, Hl | exact Hprefix].
  - assert (H : keeps dialogue (perform_merge args base_branch subdir conflict_strategy)).
    { unfold perform_merge. rewrite Hpreview. keeps_tac. }
    specialize (H w). unfold dialogue in H. injection H as H1 H2. auto.
Qed.

Lemma starts_print (msg : string) : starts (print msg) (fun r l => r = Ok tt /\ l = []).
Proof.
  intros w. exists []. cbn. rewrite started_app. cbn. rewrite !app_nil_r. auto.
Qed.

Lemma prompt_loop_quiet (prompt : string) (choices : option (list string))
    (default : option string) (input : list string) :
  started (snd (prompt_loop prompt choices default input)) = [].
Proof.
  induction input as [|line input IH]; [reflexivity|].
  cbn [prompt_loop].
  destruct (if String.eqb line "" then default else None); [reflexivity|].
  destruct choices as [cs|]; [|reflexivity].
  destruct (bool_decide _); [reflexivity|].
  destruct (prompt_loop prompt (Some cs) default input) as [[r rest] evs].
  exact IH.
Qed.

Lemma starts_Prompt_ask (prompt : string) (choices : option (list string))
    (default : option string) :
  starts (Prompt_ask prompt choices default) (fun _ l => l = []).
Proof.
  intros w. exists []. split; [|reflexivity]. unfold Prompt_ask.
  pose proof (prompt_loop_quiet prompt choices default (stdin w)) as H.
  destruct (prompt_loop prompt choices default (stdin w)) as [[r rest] evs].
  cbn in *. rewrite started_app, H. reflexivity.
Qed.

Lemma starts_open_dir (path : Repo) : starts (open_dir path) (fun _ l => l = []).
Proof.
  intros w. exists []. split; [|reflexivity]. unfold open_dir, bind, get, when.
  destruct (String.eqb (os_name w) "nt"); cbn; rewrite ?started_app; cbn;
    rewrite ?app_nil_r; reflexivity.
Qed.

(** What [on_conflict] starts: the forced merge when a side is
    selected, and nothing otherwise. *)
Lemma on_conflict_starts (args : Args.t) (subdir : string) :
  starts (on_conflict args subdir)
         (fun _ l =>
            l = []
            \/ (policy_of args <> NoPolicy
                /\ exists code, l = [(Run (forced_merge_cmd (policy_of args)) BASE_REPO_DIR false,
                                      code)])).
Proof.
  unfold on_conflict, policy_of.
  destruct (Args.merge_conflict_side args);
    [|destruct (Args.merge_conflict_base args); [|destruct (Args.y args)]].
  - eapply starts_weaken.
    + apply starts_bind; [apply starts_print | intros ?].
      apply starts_bind; [apply run_cmd_starts | intros ?]. apply starts_ret.
    + cbv beta. unfold one_process. intros r l H. footprint; cbn; eauto 6.
      all: right; split; [discriminate | eauto].
  - eapply starts_weaken.
    + apply starts_bind; [apply starts_print | intros ?].
      apply starts_bind; [apply run_cmd_starts | intros ?]. apply starts_ret.
    + cbv beta. unfold one_process. intros r l H. footprint; cbn; eauto 6.
      all: right; split; [discriminate | eauto].
  - eapply starts_weaken.
    + apply starts_bind; [apply starts_print | intros ?]. apply starts_ret.
    + cbv beta. intros r l H. footprint; cbn; auto.
  - eapply starts_weaken.
    + apply starts_bind; [apply starts_print | intros ?].
      apply starts_bind; [apply starts_open_dir | intros ?].
      apply starts_bind; [apply starts_Prompt_ask | intros ?]. apply starts_ret.
    + cbv beta. intros r l H. footprint; cbn; auto.
Qed.

(** With the base working area missing, [on_conflict] starts nothing. *)
Lemma on_conflict_missing (args : Args.t) (subdir : string) (w : World) :
  area_at (disk w) BASE_REPO_DIR = None ->
  started (trace (snd (on_conflict args subdir w))) = started (trace w).
Proof.
  intros Hmissing. unfold on_conflict.
  assert (Hforced : forall cmd,
             started (trace (snd ((print (conflict_message subdir);;
                                   run_cmd args cmd BASE_REPO_DIR true;; ret tt) w)))
             = started (trace w)).
  { intros cmd. unfold bind at 1. cbn [print modify].
    unfold bind at 1. rewrite run_cmd_missing_cwd by exact Hmissing.
    cbn. rewrite started_app. cbn. now rewrite app_nil_r. }
  destruct (Args.merge_conflict_side args); [apply Hforced|].
  destruct (Args.merge_conflict_base args); [apply Hforced|].
  destruct (Args.y args).
  - cbn. rewrite started_app. cbn. now rewrite app_nil_r.
  - destruct (on_conflict_starts args subdir w) as [l [Hl Hcases]].
    unfold on_conflict in Hl.
    destruct (starts_bind (print (conflict_message subdir))
                (fun _ => open_dir BASE_REPO_DIR;;
                          Prompt_ask "Resolve conflicts in subdir '{subdir_}' then press Enter"
                                     None None;;
                          ret tt)
                _ _ (starts_print _)
                (fun _ => starts_bind _ _ _ _ (starts_open_dir _)
                            (fun _ => starts_bind _ _ _ _ (starts_Prompt_ask _ _ _)
                                        (fun _ => starts_ret tt))) w) as [l' [Hl' H]].
    unfold conflict_message in *. rewrite Hl'. cbv beta in H. footprint; cbn;
      now rewrite ?app_nil_r.
Qed.

(** The footprint of one merge attempt. *)
Lemma merge_attempt_footprint (args : Args.t) (subdir flag : string) (w : World) :
  let attempt := Run (base_merge_cmd flag) BASE_REPO_DIR false in
  let forced := Run (forced_merge_cmd (policy_of args)) BASE_REPO_DIR false in
  let '(r, w') := merge_attempt args subdir flag w in
  exists l,
    started (trace w') = (started (trace w) ++ l)%list
    /\ (l = []
        \/ (l = [(attempt, 0%Z)] /\ r = Ok tt)
        \/ (exists code, code <> 0%Z /\ l = [(attempt, code)])
        \/ (exists code code',
              code <> 0%Z /\ policy_of args <> NoPolicy
              /\ l = [(attempt, code); (forced, code')])).
Proof.
  intros attempt forced.
  destruct (area_at (disk w) BASE_REPO_DIR) as [t|] eqn:Hbase.
  - pose proof (run_cmd_eq args (base_merge_cmd flag) BASE_REPO_DIR true w
                  (ex_intro _ t Hbase)) as Hrun.
    unfold run_outcome in Hrun.
    destruct (Z.eqb_spec (exit_code (answer_to (base_merge_cmd flag) BASE_REPO_DIR true w)) 0)
      as [Hz|Hnz].
    + rewrite (merge_success _ _ _ _ _ _ Hrun).
      exists [(attempt, 0%Z)]. split; [|auto].
      unfold run_world. cbn [trace]. rewrite started_app. cbn [started].
      rewrite started_run_prints, Hz. reflexivity.
    + rewrite (merge_failure_taken_for_conflict _ _ _ _ _ _ (ex_intro _ t Hbase) Hrun).
      destruct (on_conflict_starts args subdir
                  (run_world args (base_merge_cmd flag) BASE_REPO_DIR true w))
        as [l [Hl Hcases]].
      destruct (on_conflict args subdir _) as [r w'] eqn:Hc. cbn [fst snd] in *.
      assert (Hfirst : started (trace (run_world args (base_merge_cmd flag) BASE_REPO_DIR true w))
                       = (started (trace w)
                          ++ [(attempt,
                               exit_code (answer_to (base_merge_cmd flag) BASE_REPO_DIR true w))])%list).
      { unfold run_world. cbn [trace]. rewrite started_app. cbn [started].
        rewrite started_run_prints. reflexivity. }
      rewrite Hfirst, <- app_assoc in Hl. eexists. split; [exact Hl|].
      destruct Hcases as [-> | [Hpolicy [code' ->]]]; cbn; eauto 8.
  - assert (Hrun : run_cmd args (base_merge_cmd flag) BASE_REPO_DIR true w
                   = (Raise (OSError (missing_dir_error w BASE_REPO_DIR)), w))
      by (apply run_cmd_missing_cwd; exact Hbase).
    unfold merge_attempt, try_except, bind at 1. rewrite Hrun. cbn [is_Exception].
    destruct (PyStr.contains _ _).
    + unfold bind. rewrite Hrun. exists []. rewrite app_nil_r. auto.
    + pose proof (on_conflict_missing args subdir w Hbase) as Hquiet.
      destruct (on_conflict args subdir w) as [r w']. cbn [snd] in Hquiet.
      exists []. rewrite app_nil_r. auto.
Qed.

(** X9. The merge command is never started twice.  One merge attempt
    starts nothing (the base working area is missing), or the merge
    command alone, or the merge command followed by the forced merge
    -- and that only after the attempt exited non-zero with a side
    selected.  It returns whenever the merge command exits zero. *)
Theorem merge_attempt_starts_merge_once (args : Args.t) (subdir flag : string) (w : World) :
  let attempt := Run (base_merge_cmd flag) BASE_REPO_DIR false in
  let forced := Run (forced_merge_cmd (policy_of args)) BASE_REPO_DIR false in
  let '(r, w') := merge_attempt args subdir flag w in
  exists l,
    started (trace w') = (started (trace w) ++ l)%list
    /\ (l = []
        \/ (l = [(attempt, 0%Z)] /\ r = Ok tt)
        \/ (exists code, code <> 0%Z /\ l = [(attempt, code)])
        \/ (exists code code',
              code <> 0%Z /\ policy_of args <> NoPolicy
              /\ l = [(attempt, code); (forced, code')])).
Proof. exact (merge_attempt_footprint args subdir flag w). Qed.

Lemma starts_extends {A} (m : M A) (P : result A -> list (Invocation * Z) -> Prop) :
  starts m P -> starts m (fun _ _ => True).
Proof. intros H. eapply starts_weaken; [exact H | auto]. Qed.

Lemma merge_attempt_extends (args : Args.t) (subdir flag : string) :
  starts (merge_attempt args subdir flag) (fun _ _ => True).
Proof.
  intros w. pose proof (merge_attempt_footprint args subdir flag w) as H. cbv zeta in H.
  destruct (merge_attempt args subdir flag w) as [r w']. destruct H as [l [Hl _]].
  exists l. auto.
Qed.

(** Whatever follows the set-up in [perform_merge] only adds to the
    processes started. *)
Lemma perform_merge_tail_extends (args : Args.t) (subdir : string)
    (conflict_strategy : option string) :
  starts (if Args.merge_preview args then
            (run_cmd args "git log --graph --oneline --all" BASE_REPO_DIR false;;
             run_cmd args "git ls-tree -r HEAD" BASE_REPO_DIR false;;
             ret tt)
          else
            ((if Args.show_diff args then
                (answer <- Prompt_ask "Show diff before merge?" (Some ["yes"; "no"]) None;;
                 when (String.eqb answer "yes")
                   (run_cmd args "git diff HEAD merge_repo/HEAD" BASE_REPO_DIR true;; ret tt))
              else ret tt);;
             merge_attempt args subdir (strategy_flag_of conflict_strategy)))
         (fun _ _ => True).
Proof.
  destruct (Args.merge_preview args).
  - eapply starts_extends.
    apply starts_bind; [apply run_cmd_starts | intros ?].
    apply starts_bind; [apply run_cmd_starts | intros ?]. apply starts_ret.
  - eapply starts_extends. apply starts_bind; [|intros ?; apply merge_attempt_extends].
    destruct (Args.show_diff args); [|apply starts_extends with (1 := starts_ret tt)].
    eapply starts_extends. apply starts_bind; [apply starts_Prompt_ask | intros answer].
    unfold when. destruct (String.eqb answer "yes"); [|apply starts_extends with (1 := starts_ret tt)].
    eapply starts_extends.
    apply starts_bind; [apply run_cmd_starts | intros ?]. apply starts_ret.
Qed.

(** X7. The merge phase goes beyond its set-up only when the checkout, the
    remote registration and the fetch have all exited zero, in that
    order; otherwise it stops with a failure at the first of them
    that could not run or exited non-zero. *)
Theorem merge_needs_its_setup (args : Args.t) (base_branch subdir : string)
    (conflict_strategy : option string) (w : World) :
  let setup := [Run ("git checkout " ++ base_branch) BASE_REPO_DIR true;
                Run "git remote add merge_repo ../merge_repo" BASE_REPO_DIR true;
                Run "git fetch merge_repo" BASE_REPO_DIR true] in
  let '(r, w') := perform_merge args base_branch subdir conflict_strategy w in
  exists l,
    started (trace w') = (started (trace w) ++ l)%list
    /\ ((map fst l `prefix_of` setup /\ raised r = true)
        \/ exists rest, l = (map (fun i => (i, 0%Z)) setup ++ rest)%list).
Proof.
  intros setup.
  assert (H : starts (perform_merge args base_branch subdir conflict_strategy)
                (fun r l => (map fst l `prefix_of` setup /\ raised r = true)
                            \/ exists rest, l = (map (fun i => (i, 0%Z)) setup ++ rest)%list)).
  { unfold perform_merge. eapply starts_weaken.
    - apply starts_bind; [apply run_cmd_starts | intros ?].
      apply starts_bind; [apply run_cmd_starts | intros ?].
      apply starts_bind; [apply run_cmd_starts | intros ?].
      apply perform_merge_tail_extends.
    - cbv beta. unfold one_process, setup. intros r l H. footprint; cbn;
        first [ left; split; [eexists; reflexivity | reflexivity]
              | right; eexists; reflexivity ]. }
  destruct (H w) as [l [Hl Hcases]].
  destruct (perform_merge args base_branch subdir conflict_strategy w) as [r w'].
  exists l. auto.
Qed.



(** ** History relocation and the checks before the session *)


Lemma check_deps_missing (w : World) :
  which w "git" = false \/ which w "git-filter-repo" = false ->
  exists msg, check_deps w = (Raise (SystemExit 1), emit (Printed msg) w).
Proof.
  intros H. unfold check_deps. cbn [for_each]. unfold bind at 1, bind at 1, get.
  destruct (which w "git") eqn:Hgit.
  - destruct H as [H|H]; [discriminate|].
    cbn. unfold bind at 1, bind at 1, get. rewrite H. cbn. eauto.
  - cbn. eauto.
Qed.

Lemma check_deps_found (w : World) :
  which w "git" = true -> which w "git-filter-repo" = true -> check_deps w = (Ok tt, w).
Proof.
  intros Hgit Hfilter. unfold check_deps. cbn [for_each].
  unfold bind, get. rewrite Hgit. cbn. rewrite Hfilter. reflexivity.
Qed.

(** X11. With both conflict flags set, or with git or git-filter-repo
    missing, the script stops with exit status 1 before the session:
    no process is started, nothing is asked, and working areas left on
    disk by an earlier run are not removed. *)
Theorem main_refuses_before_any_work (args : Args.t) (w : World) :
  Args.merge_conflict_base args && Args.merge_conflict_side args = true
  \/ which w "git" = false \/ which w "git-filter-repo" = false ->
  let '(r, w') := main args w in
  r = Raise (SystemExit 1)
  /\ exit_status r = 1%Z
  /\ disk w' = disk w
  /\ started (trace w') = started (trace w)
  /\ asked (trace w') = asked (trace w)
  /\ stdin w' = stdin w.
Proof.
  intros Hstop. unfold main. unfold bind at 1.
  assert (Hopened : exists w0,
             match Args.logfile args with
             | Some (String c name) =>
                 modify (fun w => emit (OpenedLog (String c name))
                                       (with_LOGFILE_HANDLE (Some (String c name)) w))
             | _ => ret tt
             end w = (Ok tt, w0)
             /\ disk w0 = disk w
             /\ started (trace w0) = started (trace w)
             /\ asked (trace w0) = asked (trace w)
             /\ stdin w0 = stdin w /\ which w0 = which w).
  { destruct (Args.logfile args) as [[|c name]|];
      eexists; (split; [reflexivity|]); cbn;
      rewrite ?started_app, ?asked_app; cbn; rewrite ?app_nil_r; auto 6. }
  destruct Hopened as [w0 [Hw0 [Hdisk [Hstarted [Hasked [Hstdin Hwhich]]]]]].
  rewrite Hw0.
  unfold bind at 1.
  destruct (Args.merge_conflict_base args && Args.merge_conflict_side args) eqn:Hboth.
  - cbn. rewrite started_app, asked_app. cbn. rewrite !app_nil_r. auto 6.
  - destruct Hstop as [Hstop|Hstop]; [discriminate|].
    cbn [ret]. unfold bind at 1.
    destruct (check_deps_missing w0) as [msg ->]; [rewrite Hwhich; exact Hstop|].
    cbn. rewrite started_app, asked_app. cbn. rewrite !app_nil_r. auto 6.
Qed.

(** Otherwise the script goes on to the session, with the flag down. *)
Lemma main_enters_session (args : Args.t) (w : World) :
  Args.merge_conflict_base args && Args.merge_conflict_side args = false ->
  which w "git" = true -> which w "git-filter-repo" = true ->
  Args.logfile args = None ->
  main args w = session args (with_SUCCESS false w).
Proof.
  intros Hflags Hgit Hfilter Hlog. unfold main. rewrite Hlog, Hflags.
  unfold bind at 1. cbn [ret]. unfold bind at 1. cbn [ret]. unfold bind at 1.
  rewrite check_deps_found by assumption. reflexivity.
Qed.

(** ** Analytics *)

Lemma records_of_app (l1 l2 : list (Invocation * Z)) :
  records_of (l1 ++ l2) = (records_of l1 ++ records_of l2)%list.
Proof.
  induction l1 as [|[[cmd cwd capture|url target] code] l1 IH]; cbn; rewrite ?IH; reflexivity.
Qed.

Section Preserves.

Context (I : World -> Prop).

Lemma preserves_ret {A} (a : A) : preserves I (ret a).
Proof. intros w Hw. exact Hw. Qed.

Lemma preserves_raise {A} (e : exn) : preserves I (raise (A := A) e).
Proof. intros w Hw. exact Hw. Qed.

Lemma preserves_get {A} (g : World -> A) : preserves I (get g).
Proof. intros w Hw. exact Hw. Qed.

Lemma preserves_bind {A B} (m : M A) (k : A -> M B) :
  preserves I m -> (forall a, preserves I (k a)) -> preserves I (bind m k).
Proof.
  intros Hm Hk w Hw. unfold bind. specialize (Hm w Hw).
  destruct (m w) as [[a|e] w']; cbn in *; [apply Hk|]; exact Hm.
Qed.

Lemma preserves_try_except {A} (body : M A) (handle : exn -> M A) :
  preserves I body -> (forall e, preserves I (handle e)) -> preserves I (try_except body handle).
Proof.
  intros Hb Hh w Hw. unfold try_except. specialize (Hb w Hw).
  destruct (body w) as [[a|e] w']; cbn in *; [exact Hb|].
  destruct (is_Exception e); cbn; [apply Hh|]; exact Hb.
Qed.

Lemma preserves_try_finally {A} (body : M A) (final : M unit) :
  preserves I body -> preserves I final -> preserves I (try_finally body final).
Proof.
  intros Hb Hf w Hw. unfold try_finally. specialize (Hb w Hw).
  destruct (body w) as [r w']. specialize (Hf w' Hb).
  destruct (final w') as [[[]|e] w'']; exact Hf.
Qed.

Lemma preserves_when (b : bool) (m : M unit) : preserves I m -> preserves I (when b m).
Proof. intros Hm. destruct b; [exact Hm | apply preserves_ret]. Qed.

Lemma preserves_for_each {A} (xs : list A) (body : A -> M unit) :
  (forall x, preserves I (body x)) -> preserves I (for_each xs body).
Proof.
  intros Hb. induction xs as [|x xs IH]; cbn; [apply preserves_ret|].
  apply preserves_bind; [apply Hb | intros _; exact IH].
Qed.

End Preserves.

(** Whatever is neither a process of the runner nor a change of the
    list keeps the list in step. *)
Lemma in_step_quiet (w w' : World) (evs : list Event) :
  records_of (started evs) = [] ->
  trace w' = (trace w ++ evs)%list -> ANALYTICS w' = ANALYTICS w ->
  analytics_in_step w -> analytics_in_step w'.
Proof.
  unfold analytics_in_step. intros Hevs Htrace Hlist Hw.
  rewrite Hlist, Htrace, started_app, records_of_app, Hevs, app_nil_r. exact Hw.
Qed.

Lemma in_step_emit (e : Event) :
  (forall i code, e <> Spawned i code) -> preserves analytics_in_step (modify (emit e)).
Proof.
  intros He w. apply (in_step_quiet w _ [e]); [|reflexivity|reflexivity].
  destruct e; try reflexivity. now destruct (He i code).
Qed.

Lemma in_step_print (msg : string) : preserves analytics_in_step (print msg).
Proof. now apply in_step_emit. Qed.

Lemma in_step_strip_of (x : option string) : preserves analytics_in_step (strip_of x).
Proof. destruct x; [apply preserves_ret | apply preserves_raise]. Qed.

Lemma in_step_Prompt_ask (prompt : string) (choices : option (list string))
    (default : option string) :
  preserves analytics_in_step (Prompt_ask prompt choices default).
Proof.
  intros w. unfold Prompt_ask.
  pose proof (prompt_loop_quiet prompt choices default (stdin w)) as H.
  destruct (prompt_loop prompt choices default (stdin w)) as [[r rest] evs].
  cbn [snd] in H. apply (in_step_quiet w _ evs); [now rewrite H | reflexivity | reflexivity].
Qed.

Lemma in_step_rmtree (repo : Repo) (h : handler) :
  preserves analytics_in_step (shutil_rmtree repo h).
Proof.
  intros w. unfold shutil_rmtree.
  destruct (area_at (disk w) repo) as [t|]; [|auto].
  destruct (rmtree h t).
  - apply (in_step_quiet w _ []); [reflexivity | cbn; now rewrite app_nil_r | reflexivity].
  - apply (in_step_quiet w _ [Removed repo]); reflexivity.
Qed.

(** A clone is a process, but not one of the runner: it gets no
    analytics entry. *)
Lemma in_step_clone_repo (url : string) (target : Repo) :
  preserves analytics_in_step (clone_repo url target).
Proof.
  intros w. unfold clone_repo, bind, popen_git_clone. cbn [snd].
  set (r := respond w (trace w) (disk w) (GitClone url target)).
  apply (in_step_quiet w _ [Spawned (GitClone url target) (exit_code r);
                            Progress (length (List.filter (fun line => PyStr.contains "%" line)
                                                          (readlines (err r))))]).
  - reflexivity.
  - cbn. rewrite <- app_assoc. reflexivity.
  - reflexivity.
Qed.

Lemma in_step_SUCCESS (b : bool) : preserves analytics_in_step (modify (with_SUCCESS b)).
Proof. intros w Hw. exact Hw. Qed.

Section Recording.

Variable args : Args.t.

Hypothesis recording : Args.analytics args = true.

(** With [--analytics], the runner adds the entry of the process it
    started, failed or not. *)
Lemma in_step_run_cmd (cmd : string) (cwd : Repo) (live : bool) :
  preserves analytics_in_step (run_cmd args cmd cwd live).
Proof.
  intros w Hw. destruct (area_at (disk w) cwd) as [t|] eqn:Hcwd.
  - rewrite run_cmd_eq by eauto. unfold analytics_in_step, run_world in *.
    cbn [snd ANALYTICS trace]. rewrite recording, started_app. cbn [started].
    rewrite started_run_prints, records_of_app, Hw. reflexivity.
  - rewrite run_cmd_missing_cwd by assumption. exact Hw.
Qed.

End Recording.

Create HintDb in_step discriminated.

#[local] Hint Resolve preserves_ret preserves_raise preserves_get preserves_when
  in_step_print in_step_strip_of in_step_Prompt_ask in_step_rmtree in_step_clone_repo
  in_step_SUCCESS in_step_run_cmd : in_step.

Ltac in_step_step :=
  first
    [ solve [auto with in_step]
    | apply preserves_bind; [|intros ?]
    | apply preserves_try_except; [|intros ?]
    | apply preserves_try_finally
    | apply preserves_for_each; intros ?
    | apply preserves_when
    | apply in_step_emit; discriminate
    | match goal with
      | |- preserves _ (if ?b then _ else _) => destruct b
      | |- preserves _ (match ?x with _ => _ end) => destruct x
      end ].

Ltac in_step_tac := repeat in_step_step.

Lemma in_step_get_commit_dates_from (args : Args.t) (results : gmap string string)
    (repo : Repo) (branches : list string) :
  Args.analytics args = true ->
  preserves analytics_in_step (get_commit_dates_from args results repo branches).
Proof.
  intros Hon. revert results.
  induction branches as [|b rest IH]; intros results; cbn [get_commit_dates_from]; in_step_tac.
Qed.

Lemma in_step_table_rows (dates : gmap string string) (branches : list string) :
  preserves analytics_in_step (table_rows dates branches).
Proof. induction branches as [|b rest IH]; cbn [table_rows]; in_step_tac. Qed.

#[local] Hint Resolve in_step_get_commit_dates_from in_step_table_rows : in_step.





(** ** Text returned by the runner and names in the listing *)

Lemma lstrip_first (s : string) (c : ascii) :
  first_char (PyStr.lstrip s) = Some c -> PyStr.is_space c = false.
Proof.
  induction s as [|a s IH]; cbn [PyStr.lstrip]; [discriminate|].
  destruct (PyStr.is_space a) eqn:Ha; [exact IH|].
  intros [= <-]. exact Ha.
Qed.

Lemma rstrip_first (s : string) (c : ascii) :
  first_char (PyStr.rstrip s) = Some c -> first_char s = Some c.
Proof.
  destruct s as [|a s]; cbn [PyStr.rstrip]; [discriminate|].
  destruct (PyStr.rstrip s); [destruct (PyStr.is_space a); [discriminate|]|]; auto.
Qed.

Lemma rstrip_last (s : string) (c : ascii) :
  last_char (PyStr.rstrip s) = Some c -> PyStr.is_space c = false.
Proof.
  induction s as [|a s IH]; cbn [PyStr.rstrip]; [discriminate|].
  destruct (PyStr.rstrip s) as [|k kept].
  - destruct (PyStr.is_space a) eqn:Ha; [discriminate|]. intros [= <-]. exact Ha.
  - exact IH.
Qed.

Lemma strip_trimmed (s : string) : trimmed (PyStr.strip s).
Proof.
  unfold trimmed, PyStr.strip. split; intros c Hc.
  - eapply lstrip_first, rstrip_first, Hc.
  - eapply rstrip_last, Hc.
Qed.

Lemma lstrip_fixed (s : string) :
  (forall c, first_char s = Some c -> PyStr.is_space c = false) -> PyStr.lstrip s = s.
Proof.
  destruct s as [|a s]; [reflexivity|]. intros H. cbn [PyStr.lstrip].
  now rewrite (H a eq_refl).
Qed.

Lemma rstrip_fixed (s : string) :
  (forall c, last_char s = Some c -> PyStr.is_space c = false) -> PyStr.rstrip s = s.
Proof.
  induction s as [|a s IH]; [reflexivity|]. intros H. cbn [PyStr.rstrip].
  destruct s as [|b s].
  - cbn. now rewrite (H a eq_refl).
  - rewrite IH by (intros c Hc; apply H; exact Hc).
    reflexivity.
Qed.

Lemma trimmed_strip (s : string) : trimmed s -> PyStr.strip s = s.
Proof.
  intros [Hfirst Hlast]. unfold PyStr.strip.
  rewrite (lstrip_fixed s Hfirst). apply rstrip_fixed, Hlast.
Qed.

(** X1. What the runner returns is trimmed: it neither begins nor ends
    with whitespace, so trimming it again changes nothing. *)
Theorem run_cmd_output_is_trimmed (args : Args.t) (cmd : string) (cwd : Repo) (live : bool)
    (w w' : World) (text : string) :
  run_cmd args cmd cwd live w = (Ok text, w') ->
  trimmed text /\ PyStr.strip text = text.
Proof.
  intros Hrun.
  assert (Htrimmed : trimmed text).
  { destruct (area_at (disk w) cwd) as [t|] eqn:Hcwd.
    - rewrite run_cmd_eq in Hrun by eauto. unfold run_outcome in Hrun.
      destruct (exit_code _ =? 0)%Z; [|destruct live; discriminate].
      injection Hrun as <- _. destruct live; [split; discriminate | apply strip_trimmed].
    - rewrite run_cmd_missing_cwd in Hrun by assumption. discriminate. }
  split; [exact Htrimmed | apply trimmed_strip, Htrimmed].
Qed.

Lemma contains_char (c a : ascii) (s : string) :
  PyStr.contains (String c "") (String a s)
  = Ascii.eqb c a || PyStr.contains (String c "") s.
Proof. cbn [PyStr.contains PyStr.startswith]. now rewrite andb_true_r. Qed.

Lemma free_of_cons (c a : ascii) (s : string) :
  free_of c (String a s) <-> a <> c /\ free_of c s.
Proof.
  unfold free_of. rewrite contains_char, orb_false_iff, Ascii.eqb_neq.
  split; intros [H1 H2]; split; auto.
Qed.

Lemma free_of_empty (c : ascii) : free_of c "".
Proof. reflexivity. Qed.

(** No field of a split holds the separator. *)
Lemma split_fields_free (sep : ascii) (s : string) : Forall (free_of sep) (PyStr.split sep s).
Proof.
  induction s as [|a s IH]; cbn [PyStr.split].
  - constructor; [apply free_of_empty | constructor].
  - destruct (Ascii.eqb_spec a sep) as [->|Hne].
    + constructor; [apply free_of_empty | exact IH].
    + destruct (PyStr.split sep s) as [|f fs]; [repeat constructor; now apply free_of_cons|].
      inversion IH as [|? ? Hf Hfs]; subst.
      constructor; [apply free_of_cons; auto | exact Hfs].
Qed.

Lemma last_field_free (sep : ascii) (s : string) :
  free_of sep (PyStr.last_field (PyStr.split sep s)).
Proof.
  pose proof (split_fields_free sep s) as Hall.
  pose proof (split_not_nil sep s) as Hne. unfold PyStr.last_field.
  induction (PyStr.split sep s) as [|f fs IH]; [contradiction|].
  inversion Hall as [|? ? Hf Hfs]; subst.
  destruct fs as [|g fs]; [exact Hf|]. apply IH; [exact Hfs | discriminate].
Qed.

(** No line of [splitlines] holds a line boundary. *)
Lemma splitlines_lines_free (s : string) (c : ascii) :
  PyStr.is_line_boundary c = true -> Forall (free_of c) (PyStr.splitlines s).
Proof.
  intros Hc.
  assert (H : forall n s, String.length s <= n -> Forall (free_of c) (PyStr.splitlines s)).
  { clear s. induction n as [|n IH]; intros [|a s] Hlen; cbn in Hlen; try lia;
      try (cbn; constructor).
    cbn [PyStr.splitlines]. destruct (PyStr.is_line_boundary a) eqn:Ha.
    - destruct s as [|b s]; [repeat constructor|].
      destruct (Ascii.eqb a PyStr.CR && Ascii.eqb b PyStr.LF);
        (constructor; [apply free_of_empty | apply IH; cbn in *; lia]).
    - specialize (IH s ltac:(lia)).
      assert (Hne : a <> c) by (intros ->; congruence).
      destruct (PyStr.splitlines s) as [|line lines].
      + repeat constructor. now apply free_of_cons.
      + inversion IH as [|? ? Hl Hls]; subst.
        constructor; [apply free_of_cons; auto | exact Hls]. }
  apply (H (String.length s)). lia.
Qed.

Lemma free_of_substring (c : ascii) (b s : string) : substring b s -> free_of c s -> free_of c b.
Proof.
  unfold free_of. intros Hsub Hs. apply not_true_is_false. intros Hb.
  apply contains_substring in Hb. rewrite <- not_true_iff_false in Hs. apply Hs.
  apply contains_substring. eapply substring_trans; eassumption.
Qed.

(** X2. Every name in the listing is a single path component on a single
    line: it holds no "/" (a remote branch feature/login is listed as
    login) and no line boundary. *)
Theorem listed_names_are_single_components (args : Args.t) (repo : Repo) (w w' : World)
    (branches : list string) :
  list_branches args repo w = (Ok branches, w') ->
  forall b, b ∈ branches ->
            free_of "/" b
            /\ forall c, PyStr.is_line_boundary c = true -> free_of c b.
Proof.
  unfold list_branches, bind.
  destruct (run_cmd args "git branch -r" repo false w) as [[raw|e] w1]; [|discriminate].
  intros [= <- <-] b [line [Hline [_ [_ ->]]]]%elem_of_branches_of. split.
  - apply last_field_free.
  - intros c Hc. eapply free_of_substring.
    + eapply substring_trans; [apply last_field_substring | apply strip_substring].
    + pose proof (splitlines_lines_free raw c Hc) as Hall.
      rewrite Forall_forall in Hall. apply Hall. exact Hline.
Qed.

(** X3. The listing depends only on which lines git printed, not on their
    order or on how often a line is repeated. *)
Theorem listing_ignores_order_and_repetition (raw1 raw2 : string) :
  (forall line, line ∈ PyStr.splitlines raw1 <-> line ∈ PyStr.splitlines raw2) ->
  branches_of raw1 = branches_of raw2.
Proof.
  intros Hsame. unfold branches_of, PyStr.sorted_set. do 2 f_equal.
  apply set_eq. intros b. rewrite !elem_of_list_to_set, !list_elem_of_In, !in_map_iff.
  split; intros [line [Hb [Hin Hkeep]%filter_In]]; exists line; (split; [exact Hb|]);
    apply filter_In; (split; [|exact Hkeep]);
    apply list_elem_of_In, Hsame, list_elem_of_In, Hin.
Qed.

(** ** The branch table and the choice of a branch *)

Lemma date_lookups_from (args : Args.t) (repo : Repo) (branches : list string) :
  forall (results : gmap string string) (w : World),
    let w' := snd (get_commit_dates_from args results repo branches w) in
    (exists l,
        started (trace w') = (started (trace w) ++ l)%list
        /\ map fst l `sublist_of` map (fun b => Run (date_cmd b) repo true) branches)
    /\ dialogue w' = dialogue w.
Proof.
  induction branches as [|b rest IH]; intros results w; cbn zeta.
  - cbn. split; [|reflexivity]. exists []. rewrite app_nil_r. split; constructor.
  - rewrite get_commit_dates_from_cons.
    destruct (IH (<[b := recorded (fst (run_cmd args (date_cmd b) repo false w))]> results)
                 (snd (run_cmd args (date_cmd b) repo false w)))
      as [[l [Hl Hsub]] Hdialogue].
    destruct (run_cmd_starts args (date_cmd b) repo false w) as [l1 [Hl1 Hone]].
    split.
    + exists (l1 ++ l)%list. split.
      * rewrite Hl, Hl1. now rewrite <- app_assoc.
      * rewrite map_app. cbn [map negb] in *.
        destruct Hone as [[-> _]|[[code [_ [-> _]]]|[-> _]]]; cbn [map fst app].
        -- now apply sublist_cons.
        -- now apply sublist_skip.
        -- now apply sublist_skip.
    + rewrite Hdialogue. apply keeps_dialogue_run_cmd.
Qed.

(** X4. The date lookup starts nothing but the date commands of the
    requested branches, in the order of the list and at most once per
    entry (a lookup that fails is not repeated), and it asks the
    operator nothing. *)
Theorem date_lookups_at_most_one_per_branch (args : Args.t) (repo : Repo)
    (branches : list string) (w : World) :
  let w' := snd (get_commit_dates args repo branches w) in
  (exists l,
      started (trace w') = (started (trace w) ++ l)%list
      /\ map fst l `sublist_of` map (fun b => Run (date_cmd b) repo true) branches)
  /\ asked (trace w') = asked (trace w)
  /\ stdin w' = stdin w.
Proof.
  destruct (date_lookups_from args repo branches ∅ w) as [Hl Hdialogue].
  split; [exact Hl|]. unfold dialogue in Hdialogue. now injection Hdialogue.
Qed.

(** X5. The first line typed at the branch prompt decides when it is empty
    or names a listed branch: an empty line selects the remote's
    default branch when that is listed and the first listed branch
    otherwise; a line that, trimmed, is a listed branch selects that
    branch.  Any other line is refused with the message to select one
    of the available options, and the choice fails with [EOFError]
    when no further line can be read. *)
Theorem first_answer_selects_the_branch (args : Args.t) (repo : Repo) (w w1 w2 : World)
    (head : option string) (first line : string) (others rest : list string) :
  list_branches args repo w = (Ok (first :: others), w1) ->
  get_head_branch args repo w1 = (Ok head, w2) ->
  stdin w = line :: rest ->
  let branches := first :: others in
  let default := match head with
                 | Some name => if bool_decide (name ∈ branches) then name else first
                 | None => first
                 end in
  let '(r, w') := choose_branch args repo w in
  (line = "" -> r = Ok default /\ stdin w' = rest)
  /\ (line <> "" -> PyStr.strip line ∈ branches ->
      r = Ok (PyStr.strip line) /\ stdin w' = rest)
  /\ (line <> "" -> PyStr.strip line ∉ branches ->
      Printed "Please select one of the available options" ∈ trace w'
      /\ (rest = [] -> r = Raise EOFError)).
Proof.
  intros Hlist Hhead Hin. cbn zeta.
  destruct (choose_branch_eq args repo w w1 w2 _ head Hlist Hhead) as [rows ->].
  set (w3 := emit _ _).
  assert (Hstdin : stdin w3 = line :: rest).
  { unfold w3. rewrite (passive_emit stdin), (keeps_get_commit_dates stdin).
    replace w2 with (snd (get_head_branch args repo w1)) by now rewrite Hhead.
    rewrite (keeps_get_head_branch stdin).
    replace w1 with (snd (list_branches args repo w)) by now rewrite Hlist.
    now rewrite (keeps_list_branches stdin). }
  set (default := match head with
                  | Some name => if bool_decide (name ∈ first :: others) then name else first
                  | None => first
                  end).
  assert (Hask : (default0 <- match head with
                              | Some name =>
                                  if bool_decide (name ∈ first :: others) then ret name
                                  else item0 (first :: others)
                              | None => item0 (first :: others)
                              end;;
                  Prompt_ask "Select branch to merge" (Some (first :: others)) (Some default0)) w3
                 = Prompt_ask "Select branch to merge" (Some (first :: others)) (Some default) w3).
  { unfold default, bind, item0, ret. destruct head as [name|]; [|reflexivity].
    destruct (bool_decide (name ∈ first :: others)); reflexivity. }
  rewrite Hask. unfold Prompt_ask. rewrite Hstdin. cbn [prompt_loop].
  destruct (String.eqb_spec line "") as [->|Hline].
  - cbn. repeat split; try congruence.
  - destruct (bool_decide (PyStr.strip line ∈ first :: others)) eqn:Hlisted.
    + apply bool_decide_eq_true in Hlisted. cbn. repeat split; try tauto.
    + apply bool_decide_eq_false in Hlisted.
      destruct (prompt_loop _ _ _ rest) as [[r rest'] evs] eqn:Hloop.
      cbn [trace with_trace with_stdin stdin].
      split; [tauto|]. split; [tauto|]. intros _ _. split.
      * rewrite elem_of_app. right. apply elem_of_cons. right. apply elem_of_cons. now left.
      * intros ->. cbn in Hloop. now injection Hloop as <- _ _.
Qed.

(** ** The further properties at work on the scripted environment *)

Import Scenes.

(** Preview on two fresh clones, with a line waiting on the terminal:
    nothing is asked and the line stays unread. *)
Lemma preview_never_merges_witness :
  let w' := snd (perform_merge args_preview "main" "vendor" None (world cloned_disk [] ["yes"])) in
  asked (trace w') = [] /\ stdin w' = ["yes"].
Proof.
  intros w'.
  destruct (preview_never_merges args_preview "main" "vendor" None
              (world cloned_disk [] ["yes"]) eq_refl) as [_ [Hasked Hstdin]].
  split; [exact Hasked | exact Hstdin].
Defined.


(** Both conflict flags on two clones left by an earlier run: exit
    status 1, and the clones stay. *)
Lemma main_refuses_before_any_work_witness :
  let '(r, w') := main args_both (world cloned_disk [] []) in
  exit_status r = 1%Z /\ disk w' = cloned_disk /\ started (trace w') = [].
Proof.
  pose proof (main_refuses_before_any_work args_both (world cloned_disk [] [])
                (or_introl eq_refl)) as H.
  destruct (main args_both (world cloned_disk [] [])) as [r w'].
  destruct H as [_ [Hstatus [Hdisk [Hstarted _]]]].
  split; [exact Hstatus|]. split; [exact Hdisk | exact Hstarted].
Defined.


(** The date of main as git prints it, with its line end, and as the
    runner returns it. *)
Lemma run_cmd_output_is_trimmed_witness :
  exists w',
    run_cmd no_flags "git log origin/main -1 --format=%ci" MERGE_REPO_DIR false
            (world cloned_disk probe_answers [])
    = (Ok "2024-05-01 10:00:00 +0000", w')
    /\ PyStr.strip "2024-05-01 10:00:00 +0000" = "2024-05-01 10:00:00 +0000".
Proof.
  eexists. split; [vm_compute; reflexivity|].
  exact (proj2 (run_cmd_output_is_trimmed no_flags "git log origin/main -1 --format=%ci"
                  MERGE_REPO_DIR false (world cloned_disk probe_answers []) _
                  "2024-05-01 10:00:00 +0000" eq_refl)).
Defined.

(** The remote branch feature/login is listed as login. *)
Lemma listed_names_are_single_components_witness :
  exists w',
    list_branches no_flags MERGE_REPO_DIR
                  (world cloned_disk [("git branch -r", says nested_listing)] [])
    = (Ok ["login"; "main"], w')
    /\ free_of "/" "login".
Proof.
  eexists. split; [vm_compute; reflexivity|].
  refine (proj1 (listed_names_are_single_components no_flags MERGE_REPO_DIR
                   (world cloned_disk [("git branch -r", says nested_listing)] []) _
                   ["login"; "main"] eq_refl "login" _)).
  left.
Defined.

(** The listing of the four lines main, dev, main, dev is that of the
    two lines dev, main. *)
Lemma listing_ignores_order_and_repetition_witness :
  branches_of (text ["  origin/main"; "  origin/dev"; "  origin/main"; "  origin/dev"])
  = branches_of (text ["  origin/dev"; "  origin/main"]).
Proof.
  apply listing_ignores_order_and_repetition. intros line.
  replace (PyStr.splitlines (text ["  origin/main"; "  origin/dev"; "  origin/main"; "  origin/dev"]))
    with ["  origin/main"; "  origin/dev"; "  origin/main"; "  origin/dev"]
    by (vm_compute; reflexivity).
  replace (PyStr.splitlines (text ["  origin/dev"; "  origin/main"]))
    with ["  origin/dev"; "  origin/main"] by (vm_compute; reflexivity).
  rewrite !elem_of_cons, !elem_of_nil. tauto.
Defined.

(** The operator types main between blanks at the branch prompt. *)
Lemma first_answer_selects_the_branch_witness :
  fst (choose_branch no_flags MERGE_REPO_DIR (world cloned_disk probe_answers ["  main "]))
  = Ok "main".
Proof.
  pose proof (first_answer_selects_the_branch no_flags MERGE_REPO_DIR
                (world cloned_disk probe_answers ["  main "]) _ _ None "dev" "  main " ["main"] []
                eq_refl eq_refl eq_refl) as H.
  cbv zeta in H.
  destruct (choose_branch no_flags MERGE_REPO_DIR (world cloned_disk probe_answers ["  main "]))
    as [r w'].
  destruct H as [_ [Hlisted _]].
  destruct Hlisted as [Hr _]; [discriminate | right; left | exact Hr].
Defined.
